(** * The WTSS plugin controller: service storage and remote queries

    A shallow embedding of [wtss_plugin/controller/wtss_qgis_controller.py].

    The controller keeps a list of registered services in one JSON file,
    talks to remote services through the [wtss] client library and through
    [requests], and reprojects coordinates through [pyproj].  The file on
    disk and the sequence of remote requests are the state every method
    threads; Python exceptions are an explicit outcome.  The remote side is
    an oracle indexed by the number of requests issued so far, so a service
    may answer two identical requests differently. *)

From Stdlib Require Import ZArith List Ascii String Bool Floats Sorted Lia.
Import ListNotations.

Open Scope string_scope.
Open Scope list_scope.

(** ** Data *)

(** [class Service]: the three attributes written to the JSON file.  What
    [json.loads(..., object_hook=SimpleNamespace)] reads back has the same
    attributes, and two such objects are [==] when all attributes are. *)
Record Service := mkService { id : Z; name : string; host : string }.

Definition Service_eqb (a b : Service) : bool :=
  (id a =? id b)%Z && String.eqb (name a) (name b) && String.eqb (host a) (host b).

(** Python values that travel through the direct HTTP fall-back: parsed
    JSON, and the [date] objects put into the time line. *)
Record Date := mkDate { year : Z; month : Z; day : Z }.

Unset Elimination Schemes.
Inductive value :=
| VNone
| VBool (b : bool)
| VInt (z : Z)
| VFloat (f : float)
| VStr (s : string)
| VDate (d : Date)
| VList (items : list value)
| VDict (entries : list (string * value)).
Set Elimination Schemes.

(** [wtss.Coverage] and [wtss.TimeSeries]: the service they came from and
    the document the service sent. *)
Record Coverage := mkCoverage { cv_service : string; cv_metadata : value }.
Record TimeSeries := mkTimeSeries { ts_coverage : Coverage; ts_data : value }.

(** [requests.Response]: the status code, and the body when it parses as
    JSON. *)
Record Response := mkResponse { status_code : Z; body : option value }.

(** The tree handed to the tree view: tuples [(text, children)]. *)
Unset Elimination Schemes.
Inductive Tree := Node (text : string) (children : list Tree).
Set Elimination Schemes.

(** ** Exceptions and outcomes *)

Inductive Exception :=
| FileNotFoundError
| FileExistsError
| IndexError
| ValueError
| AttributeError
| KeyError
| TypeError
| RemoteError   (* whatever the wtss client or requests raised *)
| ProjError.    (* whatever pyproj raised *)

Inductive Outcome (A : Type) :=
| Return (a : A)
| Raise (e : Exception).

Arguments Return {A} a.
Arguments Raise {A} e.

(** ** The world: the storage file and the requests sent *)

(** The JSON file of [getPath()].  [NoDirectory]: the file cannot be opened
    at all, for reading or writing.  [NoFile]: the directory is there, the
    file is not.  [Stored l]: the file holds [{"services": l}]. *)
Inductive Disk :=
| NoDirectory
| NoFile
| Stored (services : list Service).

Inductive Param := PStr (s : string) | PFloat (f : float).

Inductive Request :=
| ListCoverages (url : string)
| DescribeCoverage (url product : string)
| CoverageTs (cv : Coverage) (attributes : list string)
             (longitude latitude : float) (start_date end_date : string)
| RequestsGet (url : string) (params : list (string * Param)) (timeout : Z).

Record World := mkWorld { disk : Disk; sent : list Request }.

(** The remote side.  Every answer depends on the number of requests sent
    before it; [None] is an exception raised by the client. *)
Record Network := mkNetwork {
  wtss_coverages : nat -> string -> option (list string);
  wtss_getitem : nat -> string -> string -> option Coverage;
  coverage_ts : nat -> Coverage -> list string -> float -> float ->
                string -> string -> option TimeSeries;
  requests_get : nat -> string -> list (string * Param) -> Z -> option Response
}.

(** ** The monad of the controller's methods *)

Definition M (A : Type) : Type := World -> Outcome A * World.

Definition ret {A} (a : A) : M A := fun w => (Return a, w).

Definition bind {A B} (m : M A) (k : A -> M B) : M B :=
  fun w =>
    match m w with
    | (Return a, w') => k a w'
    | (Raise e, w') => (Raise e, w')
    end.

(** [try: body except <classes>: handler] *)
Definition try_except {A} (body : M A) (classes : Exception -> bool)
    (handler : M A) : M A :=
  fun w =>
    match body w with
    | (Return a, w') => (Return a, w')
    | (Raise e, w') => if classes e then handler w' else (Raise e, w')
    end.

Definition lift {A} (o : Outcome A) : M A := fun w => (o, w).

(** Sequencing of calls that touch neither the file nor the network. *)
Definition and_then {A B} (o : Outcome A) (k : A -> Outcome B) : Outcome B :=
  match o with
  | Return a => k a
  | Raise e => Raise e
  end.

Declare Scope py_scope.
Delimit Scope py_scope with py.
Notation "x <- m ;; k" := (bind m (fun x => k))
  (at level 100, m at next level, right associativity) : py_scope.
Notation "m ;; k" := (bind m (fun _ => k))
  (at level 100, right associativity) : py_scope.
Notation "x <~ o ;; k" := (and_then o (fun x => k))
  (at level 100, o at next level, right associativity) : py_scope.
Open Scope py_scope.

(** [except (FileNotFoundError, FileExistsError)] *)
Definition file_errors (e : Exception) : bool :=
  match e with
  | FileNotFoundError | FileExistsError => true
  | _ => false
  end.

(** [except (IndexError, FileNotFoundError, FileExistsError)] *)
Definition index_or_file_errors (e : Exception) : bool :=
  match e with
  | IndexError | FileNotFoundError | FileExistsError => true
  | _ => false
  end.

(** [except FileNotFoundError] *)
Definition only_file_not_found (e : Exception) : bool :=
  match e with
  | FileNotFoundError => true
  | _ => false
  end.

(** a bare [except:] *)
Definition any_error (e : Exception) : bool := true.

(** ** Python lists *)

(** [l[i]], negative indices counted from the end. *)
Definition list_getitem {A} (l : list A) (i : Z) : Outcome A :=
  let n := Z.of_nat (List.length l) in
  let j := if (i <? 0)%Z then (i + n)%Z else i in
  if ((j <? 0)%Z || (n <=? j)%Z)%bool then Raise IndexError
  else match nth_error l (Z.to_nat j) with
       | Some a => Return a
       | None => Raise IndexError
       end.

(** [l.index(x)]: the first position holding an element equal to [x]. *)
Fixpoint list_index {A} (eqb : A -> A -> bool) (l : list A) (x : A)
    : Outcome nat :=
  match l with
  | [] => Raise ValueError
  | y :: rest =>
      if eqb y x then Return O
      else match list_index eqb rest x with
           | Return i => Return (S i)
           | Raise e => Raise e
           end
  end.

(** [l.pop(i)] for an index in range: the list without position [i]. *)
Fixpoint list_pop {A} (l : list A) (i : nat) : list A :=
  match l, i with
  | [], _ => []
  | _ :: rest, O => rest
  | y :: rest, S j => y :: list_pop rest j
  end.

(** ** Python values *)

(** [d[key]] *)
Fixpoint dict_lookup (entries : list (string * value)) (key : string)
    : option value :=
  match entries with
  | [] => None
  | (k, v) :: rest => if String.eqb k key then Some v else dict_lookup rest key
  end.

Definition value_getitem (v : value) (key : string) : Outcome value :=
  match v with
  | VDict entries =>
      match dict_lookup entries key with
      | Some x => Return x
      | None => Raise KeyError
      end
  | _ => Raise TypeError
  end.

(** [d[key] = x]: the entry is replaced in place, or added at the end. *)
Fixpoint dict_store (entries : list (string * value)) (key : string)
    (x : value) : list (string * value) :=
  match entries with
  | [] => [(key, x)]
  | (k, v) :: rest =>
      if String.eqb k key then (k, x) :: rest
      else (k, v) :: dict_store rest key x
  end.

Definition value_setitem (v : value) (key : string) (x : value)
    : Outcome value :=
  match v with
  | VDict entries => Return (VDict (dict_store entries key x))
  | _ => Raise TypeError
  end.

Fixpoint characters (s : string) : list value :=
  match s with
  | EmptyString => []
  | String c rest => VStr (String c EmptyString) :: characters rest
  end.

(** [for t in v] *)
Definition value_iter (v : value) : Outcome (list value) :=
  match v with
  | VList items => Return items
  | VStr s => Return (characters s)
  | VDict entries => Return (map (fun kv => VStr (fst kv)) entries)
  | _ => Raise TypeError
  end.

(** [[f(t) for t in items]]: stops at the first exception. *)
Fixpoint comprehension {A B} (f : A -> Outcome B) (items : list A)
    : Outcome (list B) :=
  match items with
  | [] => Return []
  | t :: rest =>
      match f t with
      | Raise e => Raise e
      | Return b =>
          match comprehension f rest with
          | Raise e => Raise e
          | Return bs => Return (b :: bs)
          end
      end
  end.

(** ** The controller *)

Section Services.

(** The remote side, [Config.WTSS_HOST], and what the name
    [datetime.strptime] evaluates to on line 364. *)
Variable net : Network.
Variable WTSS_HOST : string.
Variable strptime : value -> string -> Outcome Date.

(** *** Storage file *)

(** [getServices]: opens the file for reading and parses it.  A file that
    is there holds a list of services and can be read and written; a file
    that does not parse, or that may not be opened, is outside this
    model. *)
Definition getServices : M (list Service) :=
  fun w =>
    match disk w with
    | Stored services => (Return services, w)
    | NoFile | NoDirectory => (Raise FileNotFoundError, w)
    end.

(** [with open(str(self.getPath()), 'w') as outfile: json.dump(..., outfile)] *)
Definition json_dump (services : list Service) : M unit :=
  fun w =>
    match disk w with
    | NoDirectory => (Raise FileNotFoundError, w)
    | NoFile | Stored _ => (Return tt, mkWorld (Stored services) (sent w))
    end.

(** *** Remote calls *)

Definition tick (w : World) : nat := List.length (sent w).

Definition remote {A} (q : Request) (answer : nat -> option A) : M A :=
  fun w =>
    let w' := mkWorld (disk w) (sent w ++ [q]) in
    match answer (tick w) with
    | Some a => (Return a, w')
    | None => (Raise RemoteError, w')
    end.

(** [WTSS(host).coverages] *)
Definition coverages (url : string) : M (list string) :=
  remote (ListCoverages url) (fun t => wtss_coverages net t url).

(** [WTSS(host)[product]] *)
Definition getitem (url product : string) : M Coverage :=
  remote (DescribeCoverage url product) (fun t => wtss_getitem net t url product).

(** [coverage.ts(attributes=..., longitude=..., latitude=..., start_date=...,
    end_date=...)] *)
Definition ts (cv : Coverage) (attributes : list string)
    (longitude latitude : float) (start_date end_date : string)
    : M TimeSeries :=
  remote (CoverageTs cv attributes longitude latitude start_date end_date)
         (fun t => coverage_ts net t cv attributes longitude latitude
                               start_date end_date).

(** [requests.get(url, params, timeout=...)] *)
Definition get (url : string) (params : list (string * Param)) (timeout : Z)
    : M Response :=
  remote (RequestsGet url params timeout)
         (fun t => requests_get net t url params timeout).

(** [testServiceConnection] *)
Definition testServiceConnection (host : string) : M bool :=
  try_except
    (coverages host ;;
     ret true)
    any_error
    (ret false).

(** *** Reading the storage *)

(** The loop of [getServiceNames]. *)
Fixpoint getServiceNames_loop (services : list Service)
    (service_names : list string) : M (list string) :=
  match services with
  | [] => ret service_names
  | server :: rest =>
      ok <- testServiceConnection (host server) ;;
      if ok then getServiceNames_loop rest (service_names ++ [name server])
      else getServiceNames_loop rest service_names
  end.

Definition getServiceNames : M (list string) :=
  try_except
    (services <- getServices ;;
     getServiceNames_loop services [])
    file_errors
    (ret []).

(** [getServicesDict]: the parsed file as a dictionary, [{}] when it cannot
    be read.  The dictionary [{"services": [...]}] is the list it holds. *)
Inductive ServicesDict :=
| EmptyDict
| ServiceListDict (services : list Service).

Definition getServicesDict : M ServicesDict :=
  try_except
    (serviceList <- getServices ;;
     ret (ServiceListDict serviceList))
    file_errors
    (ret EmptyDict).

(** The loop of [findServiceByName]: every match overwrites [service]. *)
Definition find_loop (services : list Service) (service_name : string)
    : option Service :=
  fold_left
    (fun service server =>
       if String.eqb (name server) service_name then Some server else service)
    services None.

Definition findServiceByName (service_name : string) : M (option Service) :=
  try_except
    (services <- getServices ;;
     ret (find_loop services service_name))
    file_errors
    (ret None).

(** *** Changing the storage *)

Definition addService (name host : string) : M (option Service) :=
  try_except
    (server_to_save <- findServiceByName name ;;
     ok <- testServiceConnection host ;;
     match ok, server_to_save with
     | true, None =>
         found <- try_except
                    (to_save <- getServices ;;
                     last <- lift (list_getitem to_save
                                     (Z.of_nat (List.length to_save) - 1)) ;;
                     ret (to_save, (id last + 1)%Z))
                    index_or_file_errors
                    (ret ([], 0%Z)) ;;
         let '(to_save, index) := found in
         let server_to_save := mkService index name host in
         let to_save := to_save ++ [server_to_save] in
         json_dump to_save ;;
         ret (Some server_to_save)
     | _, _ => ret server_to_save
     end)
    file_errors
    (ret None).

Definition deleteService (server_name : string) : M (option Service) :=
  try_except
    (server_to_delete <- findServiceByName server_name ;;
     match server_to_delete with
     | Some server =>
         to_delete <- getServices ;;
         i <- lift (list_index Service_eqb to_delete server) ;;
         json_dump (list_pop to_delete i) ;;
         ret server_to_delete
     | None => ret server_to_delete
     end)
    file_errors
    (ret None).

Definition editService (server_name server_host : string)
    : M (option Service) :=
  server_to_edit <- findServiceByName server_name ;;
  match server_to_edit with
  | Some _ => deleteService server_name ;; addService server_name server_host
  | None => addService server_name server_host
  end.

(** [resetAvailableServices] *)
Definition resetAvailableServices : M unit :=
  addService "Brazil Data Cube" WTSS_HOST ;;
  names <- getServiceNames ;;
  match names with
  | [] => json_dump []
  | _ :: _ => ret tt
  end.

(** [Services.__init__]: the attribute [self.services] it sets is read by no
    method. *)
Definition init : M unit :=
  try_except
    (getServices ;; ret tt)
    only_file_not_found
    resetAvailableServices.

(** *** The service tree *)

(** The loop of [loadServices].  It ends normally or by an exception, and
    either way the local variable [servers] holds what was collected. *)
Fixpoint loadServices_loop (services : list Service) (servers : list Tree)
    : World -> (option Exception * list Tree) * World :=
  fun w =>
    match services with
    | [] => ((None, servers), w)
    | server :: rest =>
        match testServiceConnection (host server) w with
        | (Raise e, w1) => ((Some e, servers), w1)
        | (Return true, w1) =>
            match coverages (host server) w1 with
            | (Raise e, w2) => ((Some e, servers), w2)
            | (Return cvs, w2) =>
                let coverage_tree := map (fun coverage => Node coverage []) cvs in
                loadServices_loop rest
                  (servers ++ [Node (name server) coverage_tree]) w2
            end
        | (Return false, w1) =>
            match deleteService (name server) w1 with
            | (Raise e, w2) => ((Some e, servers), w2)
            | (Return _, w2) => loadServices_loop rest servers w2
            end
        end
    end.

Definition loadServices : M (list Tree) :=
  fun w =>
    match getServices w with
    | (Raise e, w1) =>
        if file_errors e then (Return [Node "Services" []], w1)
        else (Raise e, w1)
    | (Return services, w1) =>
        match loadServices_loop services [] w1 with
        | ((None, servers), w2) => (Return [Node "Services" servers], w2)
        | ((Some e, servers), w2) =>
            if file_errors e then (Return [Node "Services" servers], w2)
            else (Raise e, w2)
        end
    end.

(** *** Queries *)

(** [x.host] for what [findServiceByName] returned. *)
Definition getattr_host (x : option Service) : Outcome string :=
  match x with
  | Some server => Return (host server)
  | None => Raise AttributeError
  end.

Definition listProducts (service_name : string) : M (list string) :=
  found <- findServiceByName service_name ;;
  host <- lift (getattr_host found) ;;
  ok <- testServiceConnection host ;;
  if ok then coverages host
  else ret [].

(** What [productDescription] returns: a coverage object or [{}]. *)
Inductive Description :=
| NoDescription
| CoverageObject (cv : Coverage).

Definition productDescription (service_name product : string)
    : M Description :=
  found <- findServiceByName service_name ;;
  host <- lift (getattr_host found) ;;
  ok <- testServiceConnection host ;;
  if ok then
    cv <- getitem host product ;;
    ret (CoverageObject cv)
  else ret NoDescription.

(** What [productTimeSeries] returns, when it is not [None]: the client's
    time series, or the body of the direct response. *)
Inductive Series :=
| ClientSeries (time_series : TimeSeries)
| DirectSeries (response : value).

(** [response.json()] *)
Definition response_json (response : Response) : Outcome value :=
  match body response with
  | Some v => Return v
  | None => Raise ValueError
  end.

(** Lines 362 to 366, on a response with status 200. *)
Definition parse_timeline (response : Response) : Outcome value :=
  response <~ response_json response ;;
  result <~ value_getitem response "result" ;;
  tl <~ value_getitem result "timeline" ;;
  items <~ value_iter tl ;;
  tl <~ comprehension (fun t => strptime t "%Y-%m-%d") items ;;
  result <~ value_setitem result "timeline" (VList (map VDate tl)) ;;
  value_setitem response "result" result.

Definition productTimeSeries (service_name product : string)
    (bands : list string) (lon lat : float) (start_date end_date : string)
    : M (option Series) :=
  found <- findServiceByName service_name ;;
  host <- lift (getattr_host found) ;;
  ok <- testServiceConnection host ;;
  if ok then
    try_except
      (cv <- getitem host product ;;
       time_series <- ts cv bands lon lat start_date end_date ;;
       ret (Some (ClientSeries time_series)))
      any_error
      (ret None)
  else
    found <- findServiceByName service_name ;;
    host <- lift (getattr_host found) ;;
    response <- get (host ++ "/wtss/time_series")
                  [("coverage", PStr product);
                   ("attributes", PStr (String.concat "," bands));
                   ("longitude", PFloat lon);
                   ("latitude", PFloat lat);
                   ("start_date", PStr start_date);
                   ("end_date", PStr end_date)]
                  100 ;;
    if (status_code response =? 200)%Z then
      response <- lift (parse_timeline response) ;;
      ret (Some (DirectSeries response))
    else ret None.

End Services.

(** ** Coordinates *)

(** The part of [pyproj] the controller calls: [CRS.from_string],
    [Proj(init=...)] and [transform]. *)
Record Pyproj := mkPyproj {
  CRS : Type;
  Proj : Type;
  CRS_from_string : string -> Outcome CRS;
  Proj_init : CRS -> Outcome Proj;
  transform : Proj -> Proj -> float -> float -> Outcome (float * float)
}.

(** The dictionary [transformProjection] returns, by key. *)
Record Point := mkPoint { lat : float; long : float; crs : string }.

Definition transformProjection (pyproj : Pyproj) (projection : string)
    (latitude longitude : float) : Outcome Point :=
  source_crs <~ CRS_from_string pyproj projection ;;
  source <~ Proj_init pyproj source_crs ;;
  target_crs <~ CRS_from_string pyproj "EPSG:4326" ;;
  target <~ Proj_init pyproj target_crs ;;
  lat_lon <~ transform pyproj source target latitude longitude ;;
  Return (mkPoint (fst lat_lon) (snd lat_lon) "EPSG:4326").

(** ** Dates, descriptions and the tree view *)

(** ["\n"] *)
Definition newline : string := String "010"%char EmptyString.

(** An index of a slice, as Python clamps it to the length [n]. *)
Definition slice_index (n i : Z) : Z :=
  let j := if (i <? 0)%Z then (i + n)%Z else i in
  if (j <? 0)%Z then 0%Z else if (n <? j)%Z then n else j.

(** [s[start:stop]]; [None] is a bound left out. *)
Definition py_slice (s : string) (start stop : option Z) : string :=
  let n := Z.of_nat (String.length s) in
  let a := match start with Some i => slice_index n i | None => 0%Z end in
  let b := match stop with Some i => slice_index n i | None => n end in
  substring (Z.to_nat a) (Z.to_nat (b - a)) s.

Section Dates.

(** [int] on a string, and the constructor [QDate(y, m, d)]. *)
Variable int : string -> Outcome Z.
Variable QDateT : Type.
Variable QDate : Z -> Z -> Z -> Outcome QDateT.

Definition formatForQDate (date_string : string) : Outcome QDateT :=
  y <~ int (py_slice date_string None (Some 4%Z)) ;;
  m <~ int (py_slice date_string (Some 5%Z) (Some (-3)%Z)) ;;
  d <~ int (py_slice date_string (Some 8%Z) None) ;;
  QDate y m d.

End Dates.

Arguments formatForQDate int {QDateT} QDate date_string.

(** [getDescription] *)
Definition getDescription (name host coverage : string) : string :=
  "Service name: " ++ name ++ newline ++
  "Host: " ++ host ++ newline ++
  "Active coverage: " ++ coverage ++ newline.

(** [x.get(key)] for a value [x]: only a dictionary has the method. *)
Definition value_get (x : value) (key : string) : Outcome value :=
  match x with
  | VDict entries =>
      match dict_lookup entries key with
      | Some v => Return v
      | None => Return VNone
      end
  | _ => Raise AttributeError
  end.

Section CoverageDescription.

Variable net : Network.

(** [coverage.get(key)] on a [wtss] coverage object, [str(x)], and the
    format [{:,.2f}] of one value. *)
Variable coverage_get : Coverage -> string -> Outcome value.
Variable str : value -> string.
Variable format_2f : value -> Outcome string.

(** [description.get(key)] on what [productDescription] returned. *)
Definition description_get (description : Description) (key : string)
    : Outcome value :=
  match description with
  | NoDescription => Return VNone
  | CoverageObject cv => coverage_get cv key
  end.

(** Lines 141 to 149, once [productDescription] has returned. *)
Definition format_description (description : Description) : Outcome string :=
  text <~ description_get description "description" ;;
  extent <~ description_get description "spatial_extent" ;;
  xmin <~ value_get extent "xmin" ;;
  extent <~ description_get description "spatial_extent" ;;
  xmax <~ value_get extent "xmax" ;;
  extent <~ description_get description "spatial_extent" ;;
  ymin <~ value_get extent "ymin" ;;
  extent <~ description_get description "spatial_extent" ;;
  ymax <~ value_get extent "ymax" ;;
  xmin <~ format_2f xmin ;;
  xmax <~ format_2f xmax ;;
  ymin <~ format_2f ymin ;;
  ymax <~ format_2f ymax ;;
  Return (str text ++ newline ++ newline ++
          "*Dimensions*" ++ newline ++ newline ++
          "Xmin: " ++ xmin ++ newline ++
          "Xmax: " ++ xmax ++ newline ++
          "Ymin: " ++ ymin ++ newline ++
          "Ymax: " ++ ymax)%string.

Definition getCoverageDescription (service coverage : string) : M string :=
  description <- productDescription net service coverage ;;
  lift (format_description description).

End CoverageDescription.

(** The items of the tree view.  An item is known by the order of its
    creation; it has a text and the rows appended to it.  The model the
    view shows is an item like the others. *)
Record Item := mkItem { item_text : string; item_rows : list nat }.

(** [QStandardItem(text)]: the new item is the next one. *)
Definition new_item (text : string) (items : list Item) : list Item :=
  items ++ [mkItem text []].

(** [parent.appendRow(item)] *)
Fixpoint appendRow (parent item : nat) (items : list Item) : list Item :=
  match items, parent with
  | [], _ => []
  | it :: rest, O => mkItem (item_text it) (item_rows it ++ [item]) :: rest
  | it :: rest, S p => it :: appendRow p item rest
  end.

(** One round of the loop of [addItemsTreeView]. *)
Fixpoint addItemsTreeView_item (parent : nat) (element : Tree)
    (items : list Item) : list Item :=
  match element with
  | Node text children =>
      let item := List.length items in
      let items := appendRow parent item (new_item text items) in
      match children with
      | [] => items
      | _ :: _ =>
          fold_left (fun items child => addItemsTreeView_item item child items)
                    children items
      end
  end.

Definition addItemsTreeView (parent : nat) (elements : list Tree)
    (items : list Item) : list Item :=
  fold_left (fun items element => addItemsTreeView_item parent element items)
            elements items.

(** * Vocabulary of the properties *)

(** How often a name is registered. *)
Definition registrations (services : list Service) (service_name : string)
    : nat :=
  List.length (filter (fun s => String.eqb (name s) service_name) services).

(** The index [addService] gives a new entry. *)
Definition next_index (services : list Service) : Z :=
  match rev services with
  | [] => 0%Z
  | last :: _ => (id last + 1)%Z
  end.

(** Whether the service at [host] answers the request sent at time [t]. *)
Definition connects (net : Network) (t : nat) (host : string) : bool :=
  match wtss_coverages net t host with
  | Some _ => true
  | None => false
  end.

(** The world after one more request. *)
Definition after (w : World) (requests : list Request) : World :=
  mkWorld (disk w) (sent w ++ requests).


(** The storage file cannot be read. *)
Definition unreadable (d : Disk) : Prop :=
  forall services, d <> Stored services.

(** The direct request of [productTimeSeries]. *)
Definition direct_request (h product : string) (bands : list string)
    (lon lat : float) (start_date end_date : string) : Request :=
  RequestsGet (h ++ "/wtss/time_series")
    [("coverage", PStr product);
     ("attributes", PStr (String.concat "," bands));
     ("longitude", PFloat lon);
     ("latitude", PFloat lat);
     ("start_date", PStr start_date);
     ("end_date", PStr end_date)]
    100.

(** What the direct request is answered at time [t]. *)
Definition direct_answer (net : Network) (t : nat) (h product : string)
    (bands : list string) (lon lat : float) (start_date end_date : string)
    : option Response :=
  requests_get net t (h ++ "/wtss/time_series")
    [("coverage", PStr product);
     ("attributes", PStr (String.concat "," bands));
     ("longitude", PFloat lon);
     ("latitude", PFloat lat);
     ("start_date", PStr start_date);
     ("end_date", PStr end_date)]
    100.

(** A network whose services answer the connection test the same way at
    all times. *)
Definition stable (net : Network) : Prop :=
  forall t url, wtss_coverages net t url = wtss_coverages net O url.

(** The service passes the connection test. *)
Definition passes (net : Network) (s : Service) : bool :=
  connects net O (host s).

(** The node of a service in the tree: its name over its coverages. *)
Definition service_tree (net : Network) (s : Service) : Tree :=
  Node (name s)
       (map (fun coverage => Node coverage [])
            (match wtss_coverages net O (host s) with
             | Some cvs => cvs
             | None => []
             end)).

(** The services [loadServices] tests in a call that starts at time [t],
    each with the time of its connection test: a service that passes is
    asked for its coverages before the next service is tested. *)
Fixpoint test_times (net : Network) (t : nat) (services : list Service)
    : list (Service * nat) :=
  match services with
  | [] => []
  | s :: rest =>
      (s, t) :: test_times net
                  (if connects net t (host s) then S (S t) else S t) rest
  end.

(** The connection test made at that time succeeded. *)
Definition passed (net : Network) (tested : Service * nat) : bool :=
  connects net (snd tested) (host (fst tested)).

(** What the service listed right after its connection test. *)
Definition listing (net : Network) (tested : Service * nat)
    : option (list string) :=
  wtss_coverages net (S (snd tested)) (host (fst tested)).

(** The node of a tested service: its name over the coverages it listed. *)
Definition listed_tree (net : Network) (tested : Service * nat) : Tree :=
  Node (name (fst tested))
       (map (fun coverage => Node coverage [])
            (match listing net tested with
             | Some cvs => cvs
             | None => []
             end)).

(** Every service that passed its test answered the listing after it. *)
Definition listings_answered (net : Network) (tested : list (Service * nat))
    : bool :=
  forallb (fun st => match listing net st with
                     | Some _ => true
                     | None => false
                     end)
          (filter (passed net) tested).

(** The indices of a stored list grow strictly from entry to entry. *)
Definition ids_increasing (services : list Service) : Prop :=
  StronglySorted Z.lt (map id services).

(** No name is registered twice. *)
Definition names_distinct (services : list Service) : Prop :=
  NoDup (map name services).

(** The stored list, when there is one, has the property. *)
Definition stored_satisfies (P : list Service -> Prop) (w : World) : Prop :=
  forall services, disk w = Stored services -> P services.

(** The states of the storage file the interface leads to: an empty list,
    or what [__init__] writes when there is no file, then any number of
    [addService], [deleteService], [editService], [loadServices] and
    [resetAvailableServices]. *)
Inductive reachable (net : Network) (WTSS_HOST : string) : World -> Prop :=
| reach_empty requests :
    reachable net WTSS_HOST (mkWorld (Stored []) requests)
| reach_default w :
    unreadable (disk w) ->
    reachable net WTSS_HOST (snd (init net WTSS_HOST w))
| reach_add w n h :
    reachable net WTSS_HOST w ->
    reachable net WTSS_HOST (snd (addService net n h w))
| reach_delete w n :
    reachable net WTSS_HOST w ->
    reachable net WTSS_HOST (snd (deleteService n w))
| reach_edit w n h :
    reachable net WTSS_HOST w ->
    reachable net WTSS_HOST (snd (editService net n h w))
| reach_load w :
    reachable net WTSS_HOST w ->
    reachable net WTSS_HOST (snd (loadServices net w))
| reach_reset w :
    reachable net WTSS_HOST w ->
    reachable net WTSS_HOST (snd (resetAvailableServices net WTSS_HOST w)).

(** A method that leaves the storage file as it found it. *)
Definition reads_only {A} (m : M A) : Prop :=
  forall w, disk (snd (m w)) = disk w.

(** The connection tests [getServiceNames] sends for a stored list. *)
Definition connection_tests (services : list Service) : list Request :=
  map (fun s => ListCoverages (host s)) services.

(** The number of nodes of a forest. *)
Fixpoint tree_size (t : Tree) : nat :=
  match t with
  | Node _ children => S (fold_right (fun c n => (tree_size c + n)%nat) O children)
  end.

Definition forest_size (elements : list Tree) : nat :=
  fold_right (fun c n => (tree_size c + n)%nat) O elements.

(** A list with some of the entries of another, in their order. *)
Inductive subsequence {A} : list A -> list A -> Prop :=
| subsequence_nil : subsequence [] []
| subsequence_skip x l' l : subsequence l' l -> subsequence l' (x :: l)
| subsequence_keep x l' l : subsequence l' l -> subsequence (x :: l') (x :: l).

(** The tree under an item, read down to a depth. *)
Fixpoint shown (depth : nat) (items : list Item) (i : nat) : Tree :=
  match depth with
  | O => Node "" []
  | S d =>
      match nth_error items i with
      | None => Node "" []
      | Some it => Node (item_text it) (map (shown d items) (item_rows it))
      end
  end.

(** What adding one element, and adding a forest, does to the items. *)
Definition item_added (e : Tree) : Prop :=
  forall items parent t rows,
    nth_error items parent = Some (mkItem t rows) ->
    let items' := addItemsTreeView_item parent e items in
    List.length items' = (List.length items + tree_size e)%nat /\
    (forall i, (i < List.length items)%nat -> i <> parent ->
               nth_error items' i = nth_error items i) /\
    nth_error items' parent = Some (mkItem t (rows ++ [List.length items])) /\
    (forall later d,
       (forall i, (List.length items <= i < List.length items')%nat ->
                  nth_error later i = nth_error items' i) ->
       (tree_size e <= d)%nat ->
       shown d later (List.length items) = e).

Definition forest_added (es : list Tree) : Prop :=
  forall items parent t rows,
    nth_error items parent = Some (mkItem t rows) ->
    let items' := addItemsTreeView parent es items in
    exists new_rows,
      List.length items' = (List.length items + forest_size es)%nat /\
      (forall i, (i < List.length items)%nat -> i <> parent ->
                 nth_error items' i = nth_error items i) /\
      nth_error items' parent = Some (mkItem t (rows ++ new_rows)) /\
      (forall later d,
         (forall i, (List.length items <= i < List.length items')%nat ->
                    nth_error later i = nth_error items' i) ->
         (forest_size es <= d)%nat ->
         map (shown d later) new_rows = es).

(** The string has no line break. *)
Fixpoint one_line (s : string) : bool :=
  match s with
  | EmptyString => true
  | String c rest => negb (Ascii.eqb c "010"%char) && one_line rest
  end.

(** ** Concrete services, files and networks *)

Module Sample.

Definition bdc : Service := mkService 0 "Brazil Data Cube" "https://data.inpe.br/bdc/wtss/v4".
Definition lab : Service := mkService 1 "Lab" "http://localhost:5000".

(** Two entries under one name, as a file edited by hand can hold. *)
Definition mirror_old : Service := mkService 0 "Mirror" "http://old.example.org".
Definition mirror_new : Service := mkService 1 "Mirror" "http://new.example.org".

Definition file (services : list Service) : World := mkWorld (Stored services) [].

Definition two_services : World := file [bdc; lab].
Definition two_mirrors : World := file [mirror_old; mirror_new].
Definition no_file : World := mkWorld NoFile [].

(** Every service answers every request. *)
Definition up : Network :=
  mkNetwork
    (fun _ _ => Some ["MOD13Q1"; "LANDSAT"])
    (fun _ url product => Some (mkCoverage url (VDict [("name", VStr product)])))
    (fun _ cv _ _ _ _ _ => Some (mkTimeSeries cv (VDict [])))
    (fun _ _ _ _ => Some (mkResponse 200 (Some (VDict [("result", VDict [("timeline", VList [])])])))).

(** No service answers: every request raises. *)
Definition down : Network :=
  mkNetwork (fun _ _ => None) (fun _ _ _ => None)
            (fun _ _ _ _ _ _ _ => None) (fun _ _ _ _ => None).

(** Only the service at one address answers the client. *)
Definition only (address : string) : Network :=
  mkNetwork
    (fun _ url => if String.eqb url address then Some ["MOD13Q1"] else None)
    (fun _ _ _ => None)
    (fun _ _ _ _ _ _ _ => None)
    (fun _ _ _ _ => None).

(** The client cannot connect, and a direct request is answered with the
    given status and body. *)
Definition direct_only (status : Z) (answer : option value) : Network :=
  mkNetwork (fun _ _ => None) (fun _ _ _ => None)
            (fun _ _ _ _ _ _ _ => None)
            (fun _ _ _ _ => Some (mkResponse status answer)).

(** The service lists its coverages but knows no coverage by name. *)
Definition no_such_coverage : Network :=
  mkNetwork (fun _ _ => Some ["MOD13Q1"]) (fun _ _ _ => None)
            (fun _ _ _ _ _ _ _ => None) (fun _ _ _ _ => None).

(** The service answers the first request it gets and no later one. *)
Definition answers_once : Network :=
  mkNetwork (fun t _ => match t with O => Some ["MOD13Q1"] | S _ => None end)
            (fun _ _ _ => None)
            (fun _ _ _ _ _ _ _ => None) (fun _ _ _ _ => None).

(** The service answers the first two requests it gets and no later
    one. *)
Definition answers_twice : Network :=
  mkNetwork (fun t _ => match t with
                        | O | S O => Some ["MOD13Q1"]
                        | S (S _) => None
                        end)
            (fun _ _ _ => None)
            (fun _ _ _ _ _ _ _ => None) (fun _ _ _ _ => None).

(** [datetime] is bound to the module by [import datetime] on line 21, and
    the module has no attribute [strptime]. *)
Definition module_strptime (t : value) (format : string) : Outcome Date :=
  Raise AttributeError.

(** A stand-in for [pyproj] that knows EPSG codes and the identity. *)
Definition epsg_only : Pyproj :=
  mkPyproj string string
    (fun s => if String.prefix "EPSG:" s then Return s else Raise ProjError)
    (fun c => Return c)
    (fun source target x y =>
       if String.eqb source target then Return (x, y) else Raise ProjError).

(** A stand-in for [int] that reads plain decimal numerals. *)
Definition digit (c : ascii) : option Z :=
  let n := Z.of_nat (nat_of_ascii c) in
  if ((48 <=? n)%Z && (n <=? 57)%Z)%bool then Some (n - 48)%Z else None.

Fixpoint decimal (s : string) (acc : Z) : Outcome Z :=
  match s with
  | EmptyString => Return acc
  | String c rest =>
      match digit c with
      | Some d => decimal rest (10 * acc + d)%Z
      | None => Raise ValueError
      end
  end.

Definition decimal_int (s : string) : Outcome Z :=
  match s with
  | EmptyString => Raise ValueError
  | String _ _ => decimal s 0%Z
  end.

(** A stand-in for [QDate]: the three numbers. *)
Definition ymd (y m d : Z) : Outcome (Z * Z * Z) := Return (y, m, d).

(** Stand-ins for the coverage object's [get], for [str] and for the
    number format. *)
Definition metadata_get (cv : Coverage) (key : string) : Outcome value :=
  value_get (cv_metadata cv) key.

Definition plain_str (v : value) : string :=
  match v with
  | VStr s => s
  | _ => "None"
  end.

Definition whole_2f (v : value) : Outcome string :=
  match v with
  | VInt 0 => Return "0.00"
  | VInt _ => Return "1.00"
  | VFloat _ => Return "1.00"
  | _ => Raise TypeError
  end.

End Sample.

(** * Properties *)

(** ** Lists of services *)

Lemma Service_eqb_eq (a b : Service) : Service_eqb a b = true <-> a = b.
Proof.
  unfold Service_eqb. destruct a as [i n h], b as [i' n' h']; simpl.
  rewrite !andb_true_iff, Z.eqb_eq, !String.eqb_eq.
  split.
  - intros [[-> ->] ->]. reflexivity.
  - intros E. injection E as -> -> ->. auto.
Qed.

Lemma Service_eqb_refl (a : Service) : Service_eqb a a = true.
Proof. apply Service_eqb_eq. reflexivity. Qed.

Lemma find_loop_app (l : list Service) (s : Service) (n : string) :
  find_loop (l ++ [s]) n =
  if String.eqb (name s) n then Some s else find_loop l n.
Proof. unfold find_loop. rewrite fold_left_app. reflexivity. Qed.

Lemma find_loop_some (l : list Service) (n : string) (s : Service) :
  find_loop l n = Some s -> In s l /\ name s = n.
Proof.
  induction l as [|x l IH] using rev_ind; [discriminate|].
  rewrite find_loop_app. destruct (String.eqb (name x) n) eqn:E.
  - intros [= ->]. split; [apply in_or_app; right; left; reflexivity|].
    now apply String.eqb_eq.
  - intros H. destruct (IH H) as [Hin Hn]. split; [|exact Hn].
    apply in_or_app. now left.
Qed.

Lemma find_loop_none (l : list Service) (n : string) :
  find_loop l n = None <-> registrations l n = O.
Proof.
  unfold registrations.
  induction l as [|x l IH] using rev_ind; [simpl; tauto|].
  rewrite find_loop_app, filter_app, length_app. simpl.
  destruct (String.eqb (name x) n); simpl.
  - split; [discriminate|lia].
  - rewrite IH. lia.
Qed.

Lemma registrations_app (a b : list Service) (n : string) :
  registrations (a ++ b) n = (registrations a n + registrations b n)%nat.
Proof. unfold registrations. now rewrite filter_app, length_app. Qed.

Lemma registrations_cons (s : Service) (l : list Service) (n : string) :
  registrations (s :: l) n =
  ((if String.eqb (name s) n then 1 else 0) + registrations l n)%nat.
Proof. unfold registrations. simpl. now destruct (String.eqb (name s) n). Qed.

Lemma registrations_zero (l : list Service) (n : string) :
  registrations l n = O <-> (forall s, In s l -> name s <> n).
Proof.
  induction l as [|x l IH]; [simpl; split; [intros _ s []|reflexivity]|].
  rewrite registrations_cons. destruct (String.eqb (name x) n) eqn:E.
  - split; [discriminate|]. intros H. exfalso.
    apply (H x); [now left|now apply String.eqb_eq].
  - simpl. rewrite IH. apply String.eqb_neq in E. split.
    + intros H s [<-|Hs]; auto.
    + intros H s Hs. apply H. now right.
Qed.

(** [l[len(l) - 1]] is the last element, and raises [IndexError] on the
    empty list. *)
Lemma list_getitem_last {A} (l : list A) (x : A) :
  list_getitem (l ++ [x]) (Z.of_nat (List.length (l ++ [x])) - 1) = Return x.
Proof.
  unfold list_getitem. rewrite length_app. simpl.
  replace (Z.of_nat (List.length l + 1) - 1)%Z with (Z.of_nat (List.length l)) by lia.
  assert (Hneg : (Z.of_nat (List.length l) <? 0)%Z = false)
    by (apply Z.ltb_ge; lia).
  assert (Hin : (Z.of_nat (List.length l + 1) <=? Z.of_nat (List.length l))%Z = false)
    by (apply Z.leb_gt; lia).
  cbv zeta. rewrite Hneg. cbv iota. rewrite Hneg, Hin. simpl.
  rewrite Nat2Z.id, nth_error_app2, Nat.sub_diag by lia. reflexivity.
Qed.

Lemma list_getitem_nil {A} :
  list_getitem (@nil A) (Z.of_nat (List.length (@nil A)) - 1) = Raise IndexError.
Proof. reflexivity. Qed.

(** Where [index] finds an entry and what [pop] leaves. *)
Lemma list_index_split (l : list Service) (s : Service) :
  In s l ->
  exists l1 l2,
    l = l1 ++ s :: l2 /\ ~ In s l1 /\
    list_index Service_eqb l s = Return (List.length l1) /\
    list_pop l (List.length l1) = l1 ++ l2.
Proof.
  induction l as [|x l IH]; [intros []|].
  intros Hin. simpl. destruct (Service_eqb x s) eqn:E.
  - apply Service_eqb_eq in E. subst x.
    exists [], l. simpl. auto.
  - assert (Hne : x <> s).
    { intros ->. rewrite Service_eqb_refl in E. discriminate. }
    destruct Hin as [->|Hin]; [congruence|].
    destruct (IH Hin) as (l1 & l2 & -> & Hnot & Hidx & Hpop).
    exists (x :: l1), l2. simpl. rewrite Hidx, Hpop.
    repeat split; auto. intros [H|H]; auto.
Qed.

(** ** One step of each method *)

Section Runs.

Variable net : Network.

Lemma unreadable_cases (d : Disk) :
  unreadable d <-> d = NoDirectory \/ d = NoFile.
Proof.
  unfold unreadable. destruct d; split; intros H; auto; try discriminate.
  - exfalso. eapply H. reflexivity.
  - destruct H; discriminate.
Qed.

Lemma getServices_stored (w : World) (l : list Service) :
  disk w = Stored l -> getServices w = (Return l, w).
Proof. unfold getServices. now intros ->. Qed.

Lemma getServices_unreadable (w : World) :
  unreadable (disk w) -> getServices w = (Raise FileNotFoundError, w).
Proof.
  unfold getServices. intros H. destruct (disk w) eqn:E; auto.
  exfalso. eapply H. reflexivity.
Qed.

Lemma findServiceByName_stored (n : string) (w : World) (l : list Service) :
  disk w = Stored l ->
  findServiceByName n w = (Return (find_loop l n), w).
Proof.
  intros H. unfold findServiceByName, try_except, bind.
  now rewrite (getServices_stored _ _ H).
Qed.

Lemma findServiceByName_unreadable (n : string) (w : World) :
  unreadable (disk w) -> findServiceByName n w = (Return None, w).
Proof.
  intros H. unfold findServiceByName, try_except, bind.
  now rewrite (getServices_unreadable _ H).
Qed.

Lemma testServiceConnection_run (h : string) (w : World) :
  testServiceConnection net h w =
  (Return (connects net (tick w) h), after w [ListCoverages h]).
Proof.
  unfold testServiceConnection, try_except, bind, coverages, remote, connects,
    after.
  now destruct (wtss_coverages net (tick w) h).
Qed.

Lemma tick_after (w : World) (requests : list Request) :
  tick (after w requests) = (tick w + List.length requests)%nat.
Proof. unfold tick, after. simpl. now rewrite length_app. Qed.

(** The inner [try] of [addService]: the list read and the new index. *)
Lemma next_index_run (w : World) (l : list Service) :
  disk w = Stored l ->
  try_except
    (to_save <- getServices ;;
     last <- lift (list_getitem to_save (Z.of_nat (List.length to_save) - 1)) ;;
     ret (to_save, (id last + 1)%Z))
    index_or_file_errors
    (ret ([], 0%Z)) w
  = (Return (match l with [] => [] | _ :: _ => l end, next_index l), w).
Proof.
  intros H. unfold try_except, bind, lift, ret, next_index.
  rewrite (getServices_stored _ _ H).
  destruct l as [|x l] using rev_ind; [reflexivity|].
  rewrite list_getitem_last, rev_app_distr. simpl.
  now destruct (l ++ [x]) eqn:E; [destruct l; discriminate|].
Qed.

Lemma next_index_run_unreadable (w : World) :
  unreadable (disk w) ->
  try_except
    (to_save <- getServices ;;
     last <- lift (list_getitem to_save (Z.of_nat (List.length to_save) - 1)) ;;
     ret (to_save, (id last + 1)%Z))
    index_or_file_errors
    (ret ([], 0%Z)) w
  = (Return ([], 0%Z), w).
Proof.
  intros H. unfold try_except, bind.
  now rewrite (getServices_unreadable _ H).
Qed.

(** [addService] on a stored list. *)
Lemma addService_stored (n h : string) (w : World) (l : list Service) :
  disk w = Stored l ->
  addService net n h w =
  match find_loop l n with
  | None =>
      if connects net (tick w) h
      then (Return (Some (mkService (next_index l) n h)),
            mkWorld (Stored (l ++ [mkService (next_index l) n h]))
                    (sent w ++ [ListCoverages h]))
      else (Return None, after w [ListCoverages h])
  | Some s => (Return (Some s), after w [ListCoverages h])
  end.
Proof.
  intros H. unfold addService.
  unfold try_except at 1. unfold bind at 1.
  rewrite (findServiceByName_stored n _ _ H).
  unfold bind at 1. rewrite testServiceConnection_run.
  destruct (find_loop l n) as [s|] eqn:F.
  - now destruct (connects net (tick w) h).
  - destruct (connects net (tick w) h); [|reflexivity].
    unfold bind at 1.
    rewrite (next_index_run (after w [ListCoverages h]) l H).
    unfold bind, json_dump, ret. simpl. rewrite H.
    now destruct l.
Qed.

(** [addService] when the file cannot be read. *)
Lemma addService_unreadable (n h : string) (w : World) :
  unreadable (disk w) ->
  addService net n h w =
  if connects net (tick w) h then
    match disk w with
    | NoDirectory => (Return None, after w [ListCoverages h])
    | _ => (Return (Some (mkService 0 n h)),
            mkWorld (Stored [mkService 0 n h]) (sent w ++ [ListCoverages h]))
    end
  else (Return None, after w [ListCoverages h]).
Proof.
  intros H. unfold addService.
  unfold try_except at 1. unfold bind at 1.
  rewrite (findServiceByName_unreadable n _ H).
  unfold bind at 1. rewrite testServiceConnection_run.
  destruct (connects net (tick w) h); [|reflexivity].
  unfold bind at 1.
  rewrite (next_index_run_unreadable (after w [ListCoverages h]) H).
  unfold bind, json_dump, ret, file_errors. simpl.
  apply unreadable_cases in H. now destruct H as [-> | ->].
Qed.

(** [deleteService] on a stored list: nothing happens to a name that is
    not registered; otherwise the first entry equal to the last entry of
    that name goes. *)
Lemma deleteService_absent (n : string) (w : World) (l : list Service) :
  disk w = Stored l -> find_loop l n = None ->
  deleteService n w = (Return None, w).
Proof.
  intros H F. unfold deleteService, try_except, bind.
  now rewrite (findServiceByName_stored n _ _ H), F.
Qed.

Lemma deleteService_present (n : string) (w : World) (l : list Service)
    (s : Service) :
  disk w = Stored l -> find_loop l n = Some s ->
  exists l1 l2,
    l = l1 ++ s :: l2 /\ ~ In s l1 /\
    deleteService n w = (Return (Some s), mkWorld (Stored (l1 ++ l2)) (sent w)).
Proof.
  intros H F.
  destruct (find_loop_some _ _ _ F) as [Hin _].
  destruct (list_index_split _ _ Hin) as (l1 & l2 & E & Hnot & Hidx & Hpop).
  exists l1, l2. repeat split; auto.
  unfold deleteService, try_except, bind.
  rewrite (findServiceByName_stored n _ _ H), F.
  rewrite (getServices_stored _ _ H). unfold lift.
  rewrite Hidx, Hpop. unfold json_dump, ret. now rewrite H.
Qed.

Lemma deleteService_unreadable (n : string) (w : World) :
  unreadable (disk w) -> deleteService n w = (Return None, w).
Proof.
  intros H. unfold deleteService, try_except, bind.
  now rewrite (findServiceByName_unreadable n _ H).
Qed.

End Runs.

(** The methods run on the samples. *)

Example addService_on_empty_file :
  addService Sample.up "Lab" "http://localhost:5000" (Sample.file []) =
  (Return (Some (mkService 0 "Lab" "http://localhost:5000")),
   mkWorld (Stored [mkService 0 "Lab" "http://localhost:5000"])
           [ListCoverages "http://localhost:5000"]).
Proof. reflexivity. Qed.

Example addService_after_last :
  disk (snd (addService Sample.up "Lab" "http://localhost:5000"
               (Sample.file [mkService 7 "A" "a"; mkService 3 "B" "b"]))) =
  Stored [mkService 7 "A" "a"; mkService 3 "B" "b";
          mkService 4 "Lab" "http://localhost:5000"].
Proof. reflexivity. Qed.

Example deleteService_first_equal :
  disk (snd (deleteService "Lab" (Sample.file [Sample.bdc; Sample.lab]))) =
  Stored [Sample.bdc].
Proof. reflexivity. Qed.

Example editService_moves_to_end :
  disk (snd (editService Sample.up "Brazil Data Cube" "http://b"
               (Sample.file [Sample.bdc; Sample.lab]))) =
  Stored [Sample.lab; mkService 2 "Brazil Data Cube" "http://b"].
Proof. reflexivity. Qed.

Example loadServices_drops_unreachable :
  loadServices (Sample.only "http://localhost:5000")
    (Sample.file [Sample.bdc; Sample.lab]) =
  (Return [Node "Services" [Node "Lab" [Node "MOD13Q1" []]]],
   mkWorld (Stored [Sample.lab])
           [ListCoverages "https://data.inpe.br/bdc/wtss/v4";
            ListCoverages "http://localhost:5000";
            ListCoverages "http://localhost:5000"]).
Proof. reflexivity. Qed.

Example init_without_file :
  init Sample.up "https://data.inpe.br/bdc/wtss/v4" (mkWorld NoFile []) =
  (Return tt,
   mkWorld (Stored [Sample.bdc])
           [ListCoverages "https://data.inpe.br/bdc/wtss/v4";
            ListCoverages "https://data.inpe.br/bdc/wtss/v4"]).
Proof. reflexivity. Qed.

Example listProducts_unregistered :
  fst (listProducts Sample.up "Nobody" (Sample.file [Sample.bdc])) =
  Raise AttributeError.
Proof. reflexivity. Qed.

Example transformProjection_identity :
  transformProjection Sample.epsg_only "EPSG:4326" 1.5%float 2%float =
  Return (mkPoint 1.5%float 2%float "EPSG:4326").
Proof. reflexivity. Qed.

(** ** Registering a service *)




(** ** Add, find, delete *)

(** What [deleteService] leaves when the name is registered once: the list
    without that entry. *)
Lemma deleteService_single (n : string) (w : World) (l : list Service) :
  disk w = Stored l -> registrations l n = 1%nat ->
  exists l1 s l2,
    l = l1 ++ s :: l2 /\ name s = n /\
    registrations (l1 ++ l2) n = O /\
    deleteService n w = (Return (Some s), mkWorld (Stored (l1 ++ l2)) (sent w)).
Proof.
  intros H R.
  destruct (find_loop l n) as [s|] eqn:F.
  2:{ apply find_loop_none in F. lia. }
  destruct (deleteService_present n w l s H F) as (l1 & l2 & E & _ & D).
  destruct (find_loop_some _ _ _ F) as [_ Hn].
  exists l1, s, l2. repeat split; auto.
  subst l. rewrite registrations_app, registrations_cons in R.
  rewrite registrations_app.
  replace (String.eqb (name s) n) with true in R
    by (symmetry; now apply String.eqb_eq).
  lia.
Qed.

(** C2, as amended.  On every stored list: registering a name that is not
    registered at a host that passes the connection test, then looking the
    name up, gives a service with that name and host; deleting a name that
    is registered exactly once, then looking it up, gives [None]. *)
Theorem add_find_delete_find (net : Network) (n h : string)
    (w : World) (l : list Service) :
  disk w = Stored l ->
  (registrations l n = O -> connects net (tick w) h = true ->
   exists s,
     fst (findServiceByName n (snd (addService net n h w))) = Return (Some s) /\
     name s = n /\ host s = h) /\
  (registrations l n = 1%nat ->
   fst (findServiceByName n (snd (deleteService n w))) = Return None).
Proof.
  intros H. split.
  - intros R C. exists (mkService (next_index l) n h).
    rewrite (addService_stored net n h w l H).
    apply find_loop_none in R. rewrite R, C.
    cbn [snd]. erewrite findServiceByName_stored by reflexivity.
    rewrite find_loop_app. simpl. rewrite String.eqb_refl. auto.
  - intros R.
    destruct (deleteService_single n w l H R) as (l1 & s & l2 & _ & _ & R0 & ->).
    cbn [snd]. erewrite findServiceByName_stored by reflexivity.
    simpl. f_equal. now apply find_loop_none.
Qed.

Lemma add_find_delete_find_witness :
  (exists s,
     fst (findServiceByName "Lab"
            (snd (addService Sample.up "Lab" "http://localhost:5000"
                    (Sample.file [Sample.bdc])))) = Return (Some s) /\
     name s = "Lab" /\ host s = "http://localhost:5000") /\
  fst (findServiceByName "Brazil Data Cube"
         (snd (deleteService "Brazil Data Cube" (Sample.file [Sample.bdc])))) =
  Return None.
Proof.
  split.
  - apply (add_find_delete_find Sample.up "Lab" "http://localhost:5000"
             (Sample.file [Sample.bdc]) [Sample.bdc] eq_refl); reflexivity.
  - apply (add_find_delete_find Sample.up "Brazil Data Cube" ""
             (Sample.file [Sample.bdc]) [Sample.bdc] eq_refl); reflexivity.
Defined.

(** C2 as it was stated fails on a list that holds a name twice: one entry
    goes, the other is found. *)
Lemma delete_find_duplicate :
  registrations [Sample.mirror_old; Sample.mirror_new] "Mirror" = 2%nat /\
  fst (deleteService "Mirror" Sample.two_mirrors) =
    Return (Some Sample.mirror_new) /\
  disk (snd (deleteService "Mirror" Sample.two_mirrors)) =
    Stored [Sample.mirror_old] /\
  fst (findServiceByName "Mirror" (snd (deleteService "Mirror" Sample.two_mirrors))) =
    Return (Some Sample.mirror_old) /\
  fst (findServiceByName "Mirror" (snd (deleteService "Mirror" Sample.two_mirrors))) <>
    Return None.
Proof. repeat split; try reflexivity. discriminate. Qed.

(** ** Editing a service *)

(** C4, as amended.  On a stored list that holds [server_name] exactly
    once, when the connection test for the new host fails, [editService]
    removes the entry, adds nothing, returns [None], and the name is no
    longer found. *)
Theorem editService_loses_service (net : Network)
    (server_name server_host : string) (w : World) (l : list Service) :
  disk w = Stored l ->
  registrations l server_name = 1%nat ->
  connects net (tick w) server_host = false ->
  exists l1 s l2,
    l = l1 ++ s :: l2 /\ name s = server_name /\
    fst (editService net server_name server_host w) = Return None /\
    disk (snd (editService net server_name server_host w)) = Stored (l1 ++ l2) /\
    fst (findServiceByName server_name
           (snd (editService net server_name server_host w))) = Return None.
Proof.
  intros H R C.
  destruct (deleteService_single server_name w l H R)
    as (l1 & s & l2 & E & Hn & R0 & D).
  exists l1, s, l2. split; [exact E|]. split; [exact Hn|].
  assert (F : find_loop l server_name <> None).
  { rewrite find_loop_none. lia. }
  assert (Run : editService net server_name server_host w =
                (Return None,
                 mkWorld (Stored (l1 ++ l2)) (sent w ++ [ListCoverages server_host]))).
  { unfold editService, bind at 1.
    rewrite (findServiceByName_stored server_name w l H).
    destruct (find_loop l server_name); [|congruence].
    unfold bind. rewrite D.
    erewrite addService_stored by reflexivity.
    apply find_loop_none in R0. rewrite R0.
    unfold tick in *. simpl. now rewrite C. }
  rewrite Run. cbn [fst snd disk].
  repeat split.
  erewrite findServiceByName_stored by reflexivity.
  simpl. f_equal. now apply find_loop_none.
Qed.

Lemma editService_loses_service_witness :
  exists l1 s l2,
    [Sample.bdc; Sample.lab] = l1 ++ s :: l2 /\ name s = "Lab" /\
    fst (editService Sample.down "Lab" "http://elsewhere"
           (Sample.file [Sample.bdc; Sample.lab])) = Return None /\
    disk (snd (editService Sample.down "Lab" "http://elsewhere"
                 (Sample.file [Sample.bdc; Sample.lab]))) = Stored (l1 ++ l2) /\
    fst (findServiceByName "Lab"
           (snd (editService Sample.down "Lab" "http://elsewhere"
                   (Sample.file [Sample.bdc; Sample.lab])))) = Return None.
Proof.
  apply (editService_loses_service Sample.down "Lab" "http://elsewhere"
           (Sample.file [Sample.bdc; Sample.lab]) [Sample.bdc; Sample.lab]);
    reflexivity.
Defined.

(** C4 as it was stated fails on a list that holds the name twice: the
    edit returns the entry that is left, and the name is still found. *)
Lemma editService_duplicate :
  connects Sample.down (tick Sample.two_mirrors) "http://elsewhere" = false /\
  registrations [Sample.mirror_old; Sample.mirror_new] "Mirror" = 2%nat /\
  fst (editService Sample.down "Mirror" "http://elsewhere" Sample.two_mirrors) =
    Return (Some Sample.mirror_old) /\
  fst (editService Sample.down "Mirror" "http://elsewhere" Sample.two_mirrors) <>
    Return None /\
  fst (findServiceByName "Mirror"
         (snd (editService Sample.down "Mirror" "http://elsewhere"
                 Sample.two_mirrors))) <> Return None.
Proof. repeat split; try reflexivity; discriminate. Qed.

(** ** A file that cannot be read *)

(** C5, as amended.  When the storage file cannot be opened for reading
    because it is missing ([FileNotFoundError]), [getServiceNames] returns the empty list, [getServicesDict] the empty
    dictionary, [findServiceByName] and [deleteService] return [None], and
    none of them raises or touches the file.  [addService] returns [None]
    when the connection test fails or the file cannot be created either;
    when the test succeeds and only the file is missing, it creates the
    file with the new service alone, index 0, and returns that service. *)
Theorem unreadable_file_results (net : Network) (n h : string) (w : World) :
  unreadable (disk w) ->
  getServiceNames net w = (Return [], w) /\
  getServicesDict w = (Return EmptyDict, w) /\
  findServiceByName n w = (Return None, w) /\
  deleteService n w = (Return None, w) /\
  (connects net (tick w) h = false \/ disk w = NoDirectory ->
   fst (addService net n h w) = Return None /\
   disk (snd (addService net n h w)) = disk w) /\
  (connects net (tick w) h = true -> disk w = NoFile ->
   fst (addService net n h w) = Return (Some (mkService 0 n h)) /\
   disk (snd (addService net n h w)) = Stored [mkService 0 n h]).
Proof.
  intros U.
  split.
  { unfold getServiceNames, try_except, bind.
    now rewrite (getServices_unreadable w U). }
  split.
  { unfold getServicesDict, try_except, bind.
    now rewrite (getServices_unreadable w U). }
  split; [now apply findServiceByName_unreadable|].
  split; [now apply deleteService_unreadable|].
  rewrite (addService_unreadable net n h w U).
  split.
  - intros [C | D].
    + now rewrite C.
    + rewrite D. now destruct (connects net (tick w) h).
  - intros C D. now rewrite C, D.
Qed.

Lemma unreadable_file_results_witness :
  (getServiceNames Sample.up (mkWorld NoFile []) = (Return [], mkWorld NoFile []) /\
   getServicesDict (mkWorld NoFile []) = (Return EmptyDict, mkWorld NoFile []) /\
   findServiceByName "Lab" (mkWorld NoFile []) = (Return None, mkWorld NoFile []) /\
   deleteService "Lab" (mkWorld NoFile []) = (Return None, mkWorld NoFile [])) /\
  fst (addService Sample.up "Lab" "http://localhost:5000" (mkWorld NoDirectory [])) =
    Return None /\
  fst (addService Sample.up "Lab" "http://localhost:5000" (mkWorld NoFile [])) =
    Return (Some (mkService 0 "Lab" "http://localhost:5000")).
Proof.
  assert (U : forall d, d = NoFile \/ d = NoDirectory -> unreadable d).
  { intros d [-> | ->] l; discriminate. }
  pose proof (unreadable_file_results Sample.up "Lab" "http://localhost:5000"
                (mkWorld NoFile []) (U _ (or_introl eq_refl))) as F.
  pose proof (unreadable_file_results Sample.up "Lab" "http://localhost:5000"
                (mkWorld NoDirectory []) (U _ (or_intror eq_refl))) as D.
  destruct F as (F1 & F2 & F3 & F4 & _ & F6).
  destruct D as (_ & _ & _ & _ & D5 & _).
  split; [repeat split; assumption|].
  split.
  - apply D5. right. reflexivity.
  - apply F6; reflexivity.
Defined.

(** C5 as it was stated fails for [addService]: with the file missing and
    the host answering, it returns the service it has just written. *)
Lemma addService_creates_file :
  fst (getServices Sample.no_file) = Raise FileNotFoundError /\
  connects Sample.up (tick Sample.no_file) "http://localhost:5000" = true /\
  fst (addService Sample.up "Lab" "http://localhost:5000" Sample.no_file) =
    Return (Some (mkService 0 "Lab" "http://localhost:5000")) /\
  fst (addService Sample.up "Lab" "http://localhost:5000" Sample.no_file) <>
    Return None /\
  disk (snd (addService Sample.up "Lab" "http://localhost:5000" Sample.no_file)) =
    Stored [mkService 0 "Lab" "http://localhost:5000"].
Proof. repeat split; try reflexivity. discriminate. Qed.

(** ** Queries *)

Section Queries.

Variable net : Network.
Variable strptime : value -> string -> Outcome Date.

Variables (w : World) (l : list Service) (n : string) (s : Service).
Hypothesis stored : disk w = Stored l.
Hypothesis registered : find_loop l n = Some s.

Lemma listProducts_run :
  listProducts net n w =
  if connects net (tick w) (host s) then
    (match wtss_coverages net (S (tick w)) (host s) with
     | Some cvs => Return cvs
     | None => Raise RemoteError
     end,
     after w [ListCoverages (host s); ListCoverages (host s)])
  else (Return [], after w [ListCoverages (host s)]).
Proof.
  unfold listProducts, bind at 1.
  rewrite (findServiceByName_stored n w l stored), registered.
  unfold bind at 1, lift at 1, getattr_host.
  unfold bind. rewrite testServiceConnection_run.
  destruct (connects net (tick w) (host s)); [|reflexivity].
  unfold coverages, remote. rewrite tick_after. simpl.
  rewrite Nat.add_1_r, <- app_assoc. simpl.
  now destruct (wtss_coverages net (S (tick w)) (host s)).
Qed.

Lemma productDescription_run (product : string) :
  productDescription net n product w =
  if connects net (tick w) (host s) then
    (match wtss_getitem net (S (tick w)) (host s) product with
     | Some cv => Return (CoverageObject cv)
     | None => Raise RemoteError
     end,
     after w [ListCoverages (host s); DescribeCoverage (host s) product])
  else (Return NoDescription, after w [ListCoverages (host s)]).
Proof.
  unfold productDescription, bind at 1.
  rewrite (findServiceByName_stored n w l stored), registered.
  unfold bind at 1, lift at 1, getattr_host.
  unfold bind at 1. rewrite testServiceConnection_run.
  destruct (connects net (tick w) (host s)); [|reflexivity].
  unfold bind, getitem, remote. rewrite tick_after. simpl.
  rewrite Nat.add_1_r, <- app_assoc. simpl.
  now destruct (wtss_getitem net (S (tick w)) (host s) product).
Qed.

(** [productTimeSeries] after a connection test that succeeded. *)
Lemma productTimeSeries_client (product : string) (bands : list string)
    (lon lat : float) (start_date end_date : string) :
  connects net (tick w) (host s) = true ->
  productTimeSeries net strptime n product bands lon lat start_date end_date w =
  match wtss_getitem net (S (tick w)) (host s) product with
  | None =>
      (Return None,
       after w [ListCoverages (host s); DescribeCoverage (host s) product])
  | Some cv =>
      (match coverage_ts net (S (S (tick w))) cv bands lon lat
               start_date end_date with
       | Some time_series => Return (Some (ClientSeries time_series))
       | None => Return None
       end,
       after w [ListCoverages (host s); DescribeCoverage (host s) product;
                CoverageTs cv bands lon lat start_date end_date])
  end.
Proof.
  intros C.
  unfold productTimeSeries, bind at 1.
  rewrite (findServiceByName_stored n w l stored), registered.
  unfold bind at 1, lift at 1, getattr_host.
  unfold bind at 1. rewrite testServiceConnection_run, C.
  unfold try_except, bind at 1, getitem, remote. rewrite tick_after. simpl.
  rewrite Nat.add_1_r.
  destruct (wtss_getitem net (S (tick w)) (host s) product) as [cv|].
  - unfold bind, ts, remote, tick, after. simpl.
    rewrite length_app, length_app. simpl.
    rewrite <- !Nat.add_assoc. simpl. rewrite Nat.add_comm. simpl.
    rewrite <- !app_assoc. simpl.
    now destruct (coverage_ts net _ cv bands lon lat start_date end_date).
  - unfold after. simpl. now rewrite <- app_assoc.
Qed.

(** [productTimeSeries] after a connection test that failed. *)
Lemma productTimeSeries_direct (product : string) (bands : list string)
    (lon lat : float) (start_date end_date : string) :
  connects net (tick w) (host s) = false ->
  productTimeSeries net strptime n product bands lon lat start_date end_date w =
  (match direct_answer net (S (tick w)) (host s) product bands lon lat
           start_date end_date with
   | None => Raise RemoteError
   | Some response =>
       if (status_code response =? 200)%Z then
         match parse_timeline strptime response with
         | Return v => Return (Some (DirectSeries v))
         | Raise e => Raise e
         end
       else Return None
   end,
   after w [ListCoverages (host s);
            direct_request (host s) product bands lon lat start_date end_date]).
Proof.
  intros C.
  unfold productTimeSeries, bind at 1.
  rewrite (findServiceByName_stored n w l stored), registered.
  unfold bind at 1, lift at 1, getattr_host.
  unfold bind at 1. rewrite testServiceConnection_run, C.
  unfold bind at 1.
  rewrite (findServiceByName_stored n (after w [ListCoverages (host s)]) l stored),
    registered.
  unfold bind at 1, lift at 1.
  unfold bind at 1, get, remote. rewrite tick_after. simpl.
  rewrite Nat.add_1_r. unfold direct_answer, direct_request, after. simpl.
  rewrite <- app_assoc. simpl.
  destruct (requests_get net (S (tick w)) _ _ 100) as [response|]; [|reflexivity].
  destruct (status_code response =? 200)%Z; [|reflexivity].
  unfold bind, lift.
  now destruct (parse_timeline strptime response).
Qed.

End Queries.

(** C1, as amended.  For a registered service name: when the connection
    test fails, [listProducts] returns the empty list and
    [productDescription] the empty dictionary, with no request after the
    test; [productTimeSeries] then sends one direct request to the time
    series address of the host, returns [None] when the answer has a status
    other than 200, and returns the answer when its status is 200 and its
    time line parses.  When the connection test succeeds and the client
    then fails to fetch the coverage or its time series,
    [productTimeSeries] returns [None]. *)
Theorem queries_on_unavailable_service (net : Network)
    (strptime : value -> string -> Outcome Date)
    (w : World) (l : list Service) (n : string) (s : Service)
    (product : string) (bands : list string) (lon lat : float)
    (start_date end_date : string) :
  disk w = Stored l ->
  find_loop l n = Some s ->
  let series :=
    productTimeSeries net strptime n product bands lon lat start_date end_date w in
  (connects net (tick w) (host s) = false ->
   listProducts net n w = (Return [], after w [ListCoverages (host s)]) /\
   productDescription net n product w =
     (Return NoDescription, after w [ListCoverages (host s)]) /\
   snd series =
     after w [ListCoverages (host s);
              direct_request (host s) product bands lon lat start_date end_date] /\
   (forall response,
      direct_answer net (S (tick w)) (host s) product bands lon lat
        start_date end_date = Some response ->
      (status_code response <> 200%Z -> fst series = Return None) /\
      (forall answer,
         status_code response = 200%Z ->
         parse_timeline strptime response = Return answer ->
         fst series = Return (Some (DirectSeries answer))))) /\
  (connects net (tick w) (host s) = true ->
   (wtss_getitem net (S (tick w)) (host s) product = None \/
    exists cv,
      wtss_getitem net (S (tick w)) (host s) product = Some cv /\
      coverage_ts net (S (S (tick w))) cv bands lon lat start_date end_date =
        None) ->
   fst series = Return None).
Proof.
  intros H F. cbv zeta. split.
  - intros C.
    rewrite (listProducts_run net w l n s H F), C.
    rewrite (productDescription_run net w l n s H F), C.
    rewrite (productTimeSeries_direct net strptime w l n s H F _ _ _ _ _ _ C).
    split; [reflexivity|]. split; [reflexivity|]. split; [reflexivity|].
    intros response A. cbn [fst]. rewrite A. split.
    + intros St. apply Z.eqb_neq in St. now rewrite St.
    + intros answer St P. apply Z.eqb_eq in St. now rewrite St, P.
  - intros C E.
    rewrite (productTimeSeries_client net strptime w l n s H F _ _ _ _ _ _ C).
    destruct E as [-> | (cv & -> & ->)]; reflexivity.
Qed.

Lemma queries_on_unavailable_service_witness :
  (listProducts (Sample.direct_only 404 None) "Lab" Sample.two_services =
     (Return [], after Sample.two_services [ListCoverages "http://localhost:5000"]) /\
   productDescription (Sample.direct_only 404 None) "Lab" "MOD13Q1"
     Sample.two_services =
     (Return NoDescription,
      after Sample.two_services [ListCoverages "http://localhost:5000"]) /\
   productTimeSeries (Sample.direct_only 404 None) Sample.module_strptime
     "Lab" "MOD13Q1" ["NDVI"; "EVI"] (-54)%float (-12)%float
     "2020-01-01" "2020-12-31" Sample.two_services =
     (Return None,
      after Sample.two_services
        [ListCoverages "http://localhost:5000";
         direct_request "http://localhost:5000" "MOD13Q1" ["NDVI"; "EVI"]
           (-54)%float (-12)%float "2020-01-01" "2020-12-31"])) /\
  fst (productTimeSeries
         (Sample.direct_only 200
            (Some (VDict [("result", VDict [("timeline", VList [])])])))
         Sample.module_strptime
         "Lab" "MOD13Q1" ["NDVI"; "EVI"] (-54)%float (-12)%float
         "2020-01-01" "2020-12-31" Sample.two_services) =
    Return (Some (DirectSeries
                    (VDict [("result", VDict [("timeline", VList [])])]))) /\
  fst (productTimeSeries Sample.no_such_coverage Sample.module_strptime
         "Lab" "MOD13Q1" ["NDVI"; "EVI"] (-54)%float (-12)%float
         "2020-01-01" "2020-12-31" Sample.two_services) = Return None.
Proof.
  split; [|split].
  - destruct (queries_on_unavailable_service (Sample.direct_only 404 None)
                Sample.module_strptime Sample.two_services
                [Sample.bdc; Sample.lab] "Lab" Sample.lab "MOD13Q1"
                ["NDVI"; "EVI"] (-54)%float (-12)%float
                "2020-01-01" "2020-12-31" eq_refl eq_refl) as [Down _].
    destruct (Down eq_refl) as (L & D & R & T).
    split; [exact L|]. split; [exact D|].
    apply injective_projections; [|exact R].
    apply (T (mkResponse 404 None)); [reflexivity|discriminate].
  - destruct (queries_on_unavailable_service
                (Sample.direct_only 200
                   (Some (VDict [("result", VDict [("timeline", VList [])])])))
                Sample.module_strptime Sample.two_services
                [Sample.bdc; Sample.lab] "Lab" Sample.lab "MOD13Q1"
                ["NDVI"; "EVI"] (-54)%float (-12)%float
                "2020-01-01" "2020-12-31" eq_refl eq_refl) as [Down _].
    destruct (Down eq_refl) as (_ & _ & _ & T).
    apply (T (mkResponse 200
                (Some (VDict [("result", VDict [("timeline", VList [])])]))));
      reflexivity.
  - apply (queries_on_unavailable_service Sample.no_such_coverage
             Sample.module_strptime Sample.two_services
             [Sample.bdc; Sample.lab] "Lab" Sample.lab "MOD13Q1"
             ["NDVI"; "EVI"] (-54)%float (-12)%float
             "2020-01-01" "2020-12-31" eq_refl eq_refl);
      [reflexivity|left; reflexivity].
Defined.

(** C1 as it was stated fails for [productTimeSeries]: after a failed
    connection test the direct request is made, and when it is answered
    with status 200 the answer is returned, not [None]. *)
Lemma productTimeSeries_returns_direct_answer :
  find_loop [Sample.bdc; Sample.lab] "Lab" = Some Sample.lab /\
  connects
    (Sample.direct_only 200
       (Some (VDict [("result", VDict [("timeline", VList [])])])))
    (tick Sample.two_services) (host Sample.lab) = false /\
  fst (productTimeSeries
         (Sample.direct_only 200
            (Some (VDict [("result", VDict [("timeline", VList [])])])))
         Sample.module_strptime
         "Lab" "MOD13Q1" ["NDVI"; "EVI"] (-54)%float (-12)%float
         "2020-01-01" "2020-12-31" Sample.two_services) =
    Return (Some (DirectSeries
                    (VDict [("result", VDict [("timeline", VList [])])]))) /\
  fst (productTimeSeries
         (Sample.direct_only 200
            (Some (VDict [("result", VDict [("timeline", VList [])])])))
         Sample.module_strptime
         "Lab" "MOD13Q1" ["NDVI"; "EVI"] (-54)%float (-12)%float
         "2020-01-01" "2020-12-31" Sample.two_services) <> Return None.
Proof. repeat split; try reflexivity. discriminate. Qed.

(** With the service down the direct request itself raises, and nothing
    around it catches the exception. *)
Lemma productTimeSeries_raises_when_down :
  find_loop [Sample.bdc; Sample.lab] "Lab" = Some Sample.lab /\
  connects Sample.down (tick Sample.two_services) (host Sample.lab) = false /\
  fst (productTimeSeries Sample.down Sample.module_strptime
         "Lab" "MOD13Q1" ["NDVI"; "EVI"] (-54)%float (-12)%float
         "2020-01-01" "2020-12-31" Sample.two_services) = Raise RemoteError /\
  fst (productTimeSeries Sample.down Sample.module_strptime
         "Lab" "MOD13Q1" ["NDVI"; "EVI"] (-54)%float (-12)%float
         "2020-01-01" "2020-12-31" Sample.two_services) <> Return None.
Proof. repeat split; try reflexivity. discriminate. Qed.

(** After a failed connection test a direct answer with status 200 is
    returned, when its time line is empty; with [datetime] the module, a
    time line that is not empty raises. *)
Example productTimeSeries_direct_answers :
  fst (productTimeSeries
         (Sample.direct_only 200
            (Some (VDict [("result", VDict [("timeline", VList [])])])))
         Sample.module_strptime
         "Lab" "MOD13Q1" ["NDVI"] (-54)%float (-12)%float
         "2020-01-01" "2020-12-31" Sample.two_services) =
    Return (Some (DirectSeries
                    (VDict [("result", VDict [("timeline", VList [])])]))) /\
  fst (productTimeSeries
         (Sample.direct_only 200
            (Some (VDict [("result",
                           VDict [("timeline", VList [VStr "2020-01-01"])])])))
         Sample.module_strptime
         "Lab" "MOD13Q1" ["NDVI"] (-54)%float (-12)%float
         "2020-01-01" "2020-12-31" Sample.two_services) =
    Raise AttributeError.
Proof. split; reflexivity. Qed.

(** A request that fails after a connection test that succeeded is not
    caught by [listProducts] and [productDescription]. *)
Lemma listing_raises_after_test :
  fst (listProducts Sample.answers_once "Lab"
         (Sample.file [Sample.bdc; Sample.lab])) = Raise RemoteError /\
  fst (productDescription Sample.no_such_coverage "Lab" "MOD13Q1"
         (Sample.file [Sample.bdc; Sample.lab])) = Raise RemoteError.
Proof. split; reflexivity. Qed.

(** C3, as amended.  For a registered service name, every query sends the
    connection test first.  After a test that failed, [listProducts] and
    [productDescription] send nothing more, and [productTimeSeries] sends
    one direct request to the time series address of the host and returns
    [None] when the answer has a status other than 200.  After a test that
    succeeded, [listProducts] and [productDescription] send one request
    more and [productTimeSeries] one or two, and no request is sent again
    after it failed. *)
Theorem requests_of_queries (net : Network)
    (strptime : value -> string -> Outcome Date)
    (w : World) (l : list Service) (n : string) (s : Service)
    (product : string) (bands : list string) (lon lat : float)
    (start_date end_date : string) :
  disk w = Stored l ->
  find_loop l n = Some s ->
  let test := ListCoverages (host s) in
  let series :=
    productTimeSeries net strptime n product bands lon lat start_date end_date w in
  (connects net (tick w) (host s) = false ->
   sent (snd (listProducts net n w)) = sent w ++ [test] /\
   sent (snd (productDescription net n product w)) = sent w ++ [test] /\
   sent (snd series) =
     sent w ++ [test; direct_request (host s) product bands lon lat
                        start_date end_date] /\
   (forall response,
      direct_answer net (S (tick w)) (host s) product bands lon lat
        start_date end_date = Some response ->
      status_code response <> 200%Z ->
      fst series = Return None)) /\
  (connects net (tick w) (host s) = true ->
   sent (snd (listProducts net n w)) = sent w ++ [test; ListCoverages (host s)] /\
   sent (snd (productDescription net n product w)) =
     sent w ++ [test; DescribeCoverage (host s) product] /\
   match wtss_getitem net (S (tick w)) (host s) product with
   | None =>
       sent (snd series) = sent w ++ [test; DescribeCoverage (host s) product]
   | Some cv =>
       sent (snd series) =
         sent w ++ [test; DescribeCoverage (host s) product;
                    CoverageTs cv bands lon lat start_date end_date]
   end).
Proof.
  intros H F. cbv zeta. split; intros C.
  - rewrite (listProducts_run net w l n s H F), C.
    rewrite (productDescription_run net w l n s H F), C.
    rewrite (productTimeSeries_direct net strptime w l n s H F _ _ _ _ _ _ C).
    repeat split.
    intros response A St. cbn [fst]. rewrite A.
    apply Z.eqb_neq in St. now rewrite St.
  - rewrite (listProducts_run net w l n s H F), C.
    rewrite (productDescription_run net w l n s H F), C.
    rewrite (productTimeSeries_client net strptime w l n s H F _ _ _ _ _ _ C).
    repeat split.
    now destruct (wtss_getitem net (S (tick w)) (host s) product).
Qed.

Lemma requests_of_queries_witness :
  sent (snd (productTimeSeries (Sample.direct_only 404 None)
               Sample.module_strptime
               "Lab" "MOD13Q1" ["NDVI"; "EVI"] (-54)%float (-12)%float
               "2020-01-01" "2020-12-31"
               (Sample.file [Sample.bdc; Sample.lab]))) =
    [ListCoverages "http://localhost:5000";
     direct_request "http://localhost:5000" "MOD13Q1" ["NDVI"; "EVI"]
       (-54)%float (-12)%float "2020-01-01" "2020-12-31"] /\
  sent (snd (listProducts Sample.up "Lab"
               (Sample.file [Sample.bdc; Sample.lab]))) =
    [ListCoverages "http://localhost:5000";
     ListCoverages "http://localhost:5000"].
Proof.
  split.
  - apply (requests_of_queries (Sample.direct_only 404 None)
             Sample.module_strptime (Sample.file [Sample.bdc; Sample.lab])
             [Sample.bdc; Sample.lab] "Lab" Sample.lab "MOD13Q1"
             ["NDVI"; "EVI"] (-54)%float (-12)%float
             "2020-01-01" "2020-12-31" eq_refl eq_refl).
    reflexivity.
  - apply (requests_of_queries Sample.up
             Sample.module_strptime (Sample.file [Sample.bdc; Sample.lab])
             [Sample.bdc; Sample.lab] "Lab" Sample.lab "MOD13Q1"
             ["NDVI"; "EVI"] (-54)%float (-12)%float
             "2020-01-01" "2020-12-31" eq_refl eq_refl).
    reflexivity.
Defined.

(** C3 as it was stated fails twice over: a query sends two requests when
    the service answers, and [productTimeSeries] sends a second request
    after the connection test has failed. *)
Lemma two_requests_per_query :
  connects Sample.down (tick Sample.two_services) (host Sample.lab) = false /\
  sent (snd (productTimeSeries Sample.down Sample.module_strptime
               "Lab" "MOD13Q1" ["NDVI"; "EVI"] (-54)%float (-12)%float
               "2020-01-01" "2020-12-31" Sample.two_services)) =
    [ListCoverages "http://localhost:5000";
     direct_request "http://localhost:5000" "MOD13Q1" ["NDVI"; "EVI"]
       (-54)%float (-12)%float "2020-01-01" "2020-12-31"] /\
  sent (snd (listProducts Sample.up "Lab" Sample.two_services)) =
    [ListCoverages "http://localhost:5000";
     ListCoverages "http://localhost:5000"] /\
  ~ (List.length (sent (snd (listProducts Sample.up "Lab" Sample.two_services)))
     <= 1)%nat.
Proof.
  repeat split.
  change (~ (2 <= 1)%nat). lia.
Qed.

(** ** Loading the services *)

Lemma find_loop_unique (a b : list Service) (s : Service) :
  registrations b (name s) = O ->
  find_loop (a ++ s :: b) (name s) = Some s.
Proof.
  induction b as [|x b IH] using rev_ind; intros R.
  - rewrite find_loop_app.
    now rewrite String.eqb_refl.
  - rewrite registrations_app, registrations_cons in R.
    change (a ++ s :: b ++ [x]) with (a ++ (s :: b) ++ [x]).
    rewrite app_assoc, find_loop_app.
    destruct (String.eqb (name x) (name s)); [simpl in R; lia|].
    apply IH. lia.
Qed.

Lemma list_index_middle (a b : list Service) (s : Service) :
  ~ In s a ->
  list_index Service_eqb (a ++ s :: b) s = Return (List.length a).
Proof.
  induction a as [|x a IH]; intros N; simpl.
  - now rewrite Service_eqb_refl.
  - destruct (Service_eqb x s) eqn:E.
    + apply Service_eqb_eq in E. subst x. exfalso. apply N. now left.
    + rewrite IH; [reflexivity|]. intros I. apply N. now right.
Qed.

Lemma list_pop_middle {A} (a b : list A) (s : A) :
  list_pop (a ++ s :: b) (List.length a) = a ++ b.
Proof. induction a as [|x a IH]; simpl; [reflexivity|now rewrite IH]. Qed.

Lemma NoDup_names_middle (a b : list Service) (s : Service) :
  NoDup (map name (a ++ s :: b)) ->
  ~ In s a /\ registrations b (name s) = O /\ NoDup (map name (a ++ b)).
Proof.
  rewrite map_app. simpl. intros N.
  pose proof (NoDup_remove_1 _ _ _ N) as N1.
  pose proof (NoDup_remove_2 _ _ _ N) as N2.
  rewrite <- map_app in N1. repeat split; auto.
  - intros I. apply N2, in_or_app. left. now apply in_map.
  - apply registrations_zero. intros x I E.
    apply N2, in_or_app. right. rewrite <- E. now apply in_map.
Qed.

(** With names registered once, [deleteService] takes out the entry of
    that name and nothing else. *)
Lemma deleteService_unique (a b : list Service) (s : Service) (w : World) :
  disk w = Stored (a ++ s :: b) ->
  NoDup (map name (a ++ s :: b)) ->
  deleteService (name s) w =
  (Return (Some s), mkWorld (Stored (a ++ b)) (sent w)).
Proof.
  intros H N. destruct (NoDup_names_middle a b s N) as (Na & Rb & _).
  unfold deleteService, try_except, bind.
  rewrite (findServiceByName_stored (name s) w _ H).
  rewrite (find_loop_unique a b s Rb).
  rewrite (getServices_stored w _ H). unfold lift.
  rewrite (list_index_middle a b s Na), list_pop_middle.
  unfold json_dump, ret. now rewrite H.
Qed.

Lemma loadServices_loop_run (net : Network) :
  stable net ->
  forall (rest kept : list Service) (servers : list Tree) (w : World),
    disk w = Stored (kept ++ rest) ->
    NoDup (map name (kept ++ rest)) ->
    exists w',
      loadServices_loop net rest servers w =
        ((None, servers ++ map (service_tree net) (filter (passes net) rest)), w') /\
      disk w' = Stored (kept ++ filter (passes net) rest).
Proof.
  intros St rest.
  induction rest as [|server rest IH]; intros kept servers w H N.
  - exists w. simpl. now rewrite app_nil_r.
  - cbn [loadServices_loop filter]. rewrite testServiceConnection_run.
    unfold connects at 1. rewrite St. fold (connects net O (host server)).
    fold (passes net server).
    destruct (passes net server) eqn:P.
    + unfold coverages, remote. rewrite St.
      unfold passes, connects in P. unfold service_tree.
      destruct (wtss_coverages net O (host server)) as [cvs|] eqn:C;
        [|discriminate].
      destruct (IH (kept ++ [server])
                  (servers ++ [Node (name server)
                                 (map (fun coverage => Node coverage []) cvs)])
                  (mkWorld (disk (after w [ListCoverages (host server)]))
                     (sent (after w [ListCoverages (host server)]) ++
                      [ListCoverages (host server)])))
        as (w' & Run & D).
      * simpl. now rewrite <- app_assoc.
      * now rewrite <- app_assoc.
      * exists w'. rewrite Run, D. cbn [map]. rewrite C.
        now rewrite <- !app_assoc.
    + rewrite (deleteService_unique kept rest server
                 (after w [ListCoverages (host server)]) H N).
      destruct (NoDup_names_middle kept rest server N) as (_ & _ & N').
      apply IH; [reflexivity|exact N'].
Qed.

Lemma test_times_services (net : Network) (l : list Service) :
  forall t, map fst (test_times net t l) = l.
Proof.
  induction l as [|s l IH]; intros t; simpl; [reflexivity|].
  now rewrite IH.
Qed.

Lemma NoDup_fst_unique {A B} (xs : list (A * B)) (a : A) (b c : B) :
  NoDup (map fst xs) -> In (a, b) xs -> In (a, c) xs -> b = c.
Proof.
  induction xs as [|[x y] xs IH]; simpl; intros N Ib Ic; [destruct Ib|].
  apply NoDup_cons_iff in N. destruct N as [N1 N2].
  destruct Ib as [Eb|Ib], Ic as [Ec|Ic].
  - congruence.
  - injection Eb as -> ->. exfalso. apply N1.
    change a with (fst (a, c)). now apply in_map.
  - injection Ec as -> ->. exfalso. apply N1.
    change a with (fst (a, b)). now apply in_map.
  - now apply IH.
Qed.

Lemma filter_passed_cons (net : Network) (s : Service) (t : nat)
    (xs : list (Service * nat)) :
  filter (passed net) ((s, t) :: xs) =
  if connects net t (host s) then (s, t) :: filter (passed net) xs
  else filter (passed net) xs.
Proof. reflexivity. Qed.

Lemma listings_answered_cons (net : Network) (s : Service) (t : nat)
    (xs : list (Service * nat)) :
  listings_answered net ((s, t) :: xs) =
  if connects net t (host s)
  then match wtss_coverages net (S t) (host s) with
       | Some _ => listings_answered net xs
       | None => false
       end
  else listings_answered net xs.
Proof.
  unfold listings_answered. rewrite filter_passed_cons.
  destruct (connects net t (host s)); [|reflexivity].
  cbn [forallb]. unfold listing at 1. cbn [fst snd].
  now destruct (wtss_coverages net (S t) (host s)).
Qed.

(** The loop of [loadServices] on any network: it ends without an
    exception exactly when every listing asked for is answered, and then
    keeps the services whose test passed. *)
Lemma loadServices_loop_any (net : Network) :
  forall (rest kept : list Service) (servers : list Tree) (w : World),
    disk w = Stored (kept ++ rest) ->
    NoDup (map name (kept ++ rest)) ->
    exists w' servers',
      loadServices_loop net rest servers w =
        ((if listings_answered net (test_times net (tick w) rest)
          then None else Some RemoteError, servers'), w') /\
      (listings_answered net (test_times net (tick w) rest) = true ->
       servers' =
         servers ++ map (listed_tree net)
                      (filter (passed net) (test_times net (tick w) rest)) /\
       disk w' =
         Stored (kept ++ map fst (filter (passed net)
                                    (test_times net (tick w) rest)))).
Proof.
  intros rest. induction rest as [|server rest IH]; intros kept servers w H N.
  - exists w, servers. simpl. rewrite app_nil_r in H. rewrite !app_nil_r. auto.
  - cbn [loadServices_loop test_times]. rewrite testServiceConnection_run.
    rewrite listings_answered_cons, filter_passed_cons.
    destruct (connects net (tick w) (host server)) eqn:C.
    + unfold coverages, remote. rewrite tick_after. simpl List.length.
      rewrite Nat.add_1_r.
      destruct (wtss_coverages net (S (tick w)) (host server)) as [cvs|] eqn:A.
      * set (w2 := mkWorld (disk (after w [ListCoverages (host server)]))
                     (sent (after w [ListCoverages (host server)]) ++
                      [ListCoverages (host server)])).
        assert (T2 : tick w2 = S (S (tick w))).
        { unfold w2, tick, after. simpl. rewrite !length_app. simpl. lia. }
        destruct (IH (kept ++ [server])
                    (servers ++ [Node (name server)
                                   (map (fun coverage => Node coverage []) cvs)])
                    w2)
          as (w' & servers' & Run & Ok).
        { unfold w2. simpl. now rewrite <- app_assoc. }
        { now rewrite <- app_assoc. }
        rewrite T2 in Run, Ok. exists w', servers'.
        split; [exact Run|].
        intros L. destruct (Ok L) as [-> ->]. cbn [map fst].
        unfold listed_tree at 2, listing. cbn [fst snd]. rewrite A.
        now rewrite <- !app_assoc.
      * eexists _, _. split; [reflexivity|discriminate].
    + rewrite (deleteService_unique kept rest server
                 (after w [ListCoverages (host server)]) H N).
      destruct (NoDup_names_middle kept rest server N) as (_ & _ & N').
      set (w1 := mkWorld (Stored (kept ++ rest))
                   (sent (after w [ListCoverages (host server)]))).
      assert (T1 : tick w1 = S (tick w)).
      { unfold w1, tick, after. simpl. rewrite length_app. simpl. lia. }
      destruct (IH kept servers w1 eq_refl N') as (w' & servers' & Run & Ok).
      rewrite T1 in Run, Ok. exists w', servers'.
      split; [exact Run|exact Ok].
Qed.

(** On a network that answers the same way at all times every listing is
    answered, and the services whose test passes are those that pass at any
    time. *)
Lemma test_times_stable (net : Network) (l : list Service) :
  stable net ->
  forall t,
    listings_answered net (test_times net t l) = true /\
    map fst (filter (passed net) (test_times net t l)) = filter (passes net) l /\
    map (listed_tree net) (filter (passed net) (test_times net t l)) =
      map (service_tree net) (filter (passes net) l).
Proof.
  intros St. induction l as [|s l IH]; intros t; [repeat split|].
  cbn [test_times]. rewrite listings_answered_cons, filter_passed_cons.
  change (filter (passes net) (s :: l))
    with (if passes net s then s :: filter (passes net) l
          else filter (passes net) l).
  assert (C : connects net t (host s) = passes net s).
  { unfold passes, connects. now rewrite St. }
  rewrite C. destruct (passes net s) eqn:P.
  - destruct (IH (S (S t))) as (A & B & T).
    cbn [map fst]. unfold listed_tree at 1, listing.
    cbn [fst snd]. rewrite St.
    unfold passes, connects in P. unfold service_tree at 1.
    destruct (wtss_coverages net O (host s)); [|discriminate].
    rewrite A, B, T. repeat split.
  - destruct (IH (S t)) as (A & B & T).
    rewrite A, B, T. repeat split.
Qed.

(** C7, as amended.  On a stored list whose names are all different, on
    any network: [loadServices] tests every stored service once, in the
    order of the list.  Whenever it returns, the storage holds exactly the
    services whose connection test succeeded, in their order, so every
    remaining service passed its test and every service whose test failed
    has been deleted; and the tree holds exactly the passing services, each
    over the coverage names it listed.  It returns when every service that
    passed its test answers the listing asked next, as services that
    answer the same way at all times do. *)
Theorem loadServices_keeps_passing (net : Network) (w : World)
    (l : list Service) :
  disk w = Stored l ->
  NoDup (map name l) ->
  let tested := test_times net (tick w) l in
  let remaining := map fst (filter (passed net) tested) in
  map fst tested = l /\
  (forall tree,
     fst (loadServices net w) = Return tree ->
     disk (snd (loadServices net w)) = Stored remaining /\
     (forall s, In s remaining ->
        exists t, In (s, t) tested /\ connects net t (host s) = true) /\
     (forall s t, In (s, t) tested -> connects net t (host s) = false ->
        ~ In s remaining) /\
     (forall s t, In (s, t) tested -> connects net t (host s) = true ->
        In s remaining) /\
     tree = [Node "Services"
               (map (listed_tree net) (filter (passed net) tested))]) /\
  (listings_answered net tested = true ->
   exists tree, fst (loadServices net w) = Return tree) /\
  (stable net ->
   fst (loadServices net w) =
     Return [Node "Services"
               (map (service_tree net) (filter (passes net) l))] /\
   disk (snd (loadServices net w)) = Stored (filter (passes net) l)).
Proof.
  intros H N. cbv zeta.
  pose proof (test_times_services net l (tick w)) as M.
  destruct (loadServices_loop_any net l [] [] w H N)
    as (w' & servers' & Run & Ok).
  assert (Load : loadServices net w =
                 if listings_answered net (test_times net (tick w) l)
                 then (Return [Node "Services" servers'], w')
                 else (Raise RemoteError, w')).
  { unfold loadServices. rewrite (getServices_stored w l H), Run.
    now destruct (listings_answered net (test_times net (tick w) l)). }
  split; [exact M|]. split; [|split].
  - intros tree R. rewrite Load in *.
    destruct (listings_answered net (test_times net (tick w) l));
      [|discriminate R].
    destruct (Ok eq_refl) as [-> D]. cbn [fst snd app] in *.
    injection R as <-.
    split; [exact D|]. split; [|split; [|split; [|reflexivity]]].
    + intros s I. apply in_map_iff in I. destruct I as ([s' t] & E & I).
      simpl in E. subst s'. apply filter_In in I. destruct I as [I P].
      exists t. split; [exact I|exact P].
    + intros s t I F I'. apply in_map_iff in I'.
      destruct I' as ([s' t'] & E & I'). simpl in E. subst s'.
      apply filter_In in I'. destruct I' as [I' P]. unfold passed in P.
      simpl in P.
      assert (ND : NoDup (map fst (test_times net (tick w) l))).
      { rewrite M. now apply NoDup_map_inv with (f := name). }
      rewrite (NoDup_fst_unique _ s t t' ND I I') in F. congruence.
    + intros s t I P. apply in_map_iff. exists (s, t). split; [reflexivity|].
      apply filter_In. split; [exact I|exact P].
  - intros L. rewrite Load, L. now exists [Node "Services" servers'].
  - intros St.
    destruct (test_times_stable net l St (tick w)) as (A & B & T).
    rewrite Load, A. destruct (Ok A) as [-> D]. cbn [fst snd app].
    now rewrite T, D, B.
Qed.

Lemma loadServices_keeps_passing_witness :
  disk (snd (loadServices Sample.answers_twice Sample.two_services)) =
    Stored [Sample.bdc] /\
  (exists tree,
     fst (loadServices Sample.answers_twice Sample.two_services) = Return tree) /\
  fst (loadServices (Sample.only "http://localhost:5000") Sample.two_services) =
    Return [Node "Services" [Node "Lab" [Node "MOD13Q1" []]]] /\
  disk (snd (loadServices (Sample.only "http://localhost:5000")
               Sample.two_services)) = Stored [Sample.lab].
Proof.
  assert (N : NoDup (map name [Sample.bdc; Sample.lab])).
  { repeat constructor; simpl; intuition discriminate. }
  destruct (loadServices_keeps_passing Sample.answers_twice Sample.two_services
              [Sample.bdc; Sample.lab] eq_refl N)
    as (_ & Returned & Answered & _).
  destruct (loadServices_keeps_passing (Sample.only "http://localhost:5000")
              Sample.two_services [Sample.bdc; Sample.lab] eq_refl N)
    as (_ & _ & _ & Stable).
  split; [|split].
  - apply (Returned [Node "Services"
                       [Node "Brazil Data Cube" [Node "MOD13Q1" []]]]).
    reflexivity.
  - apply Answered. reflexivity.
  - apply Stable. intros t url. reflexivity.
Defined.

(** C7 as it was stated fails on a list that holds a name twice: the entry
    that fails the test stays and the one that passes is deleted, while the
    tree shows the name. *)
Lemma loadServices_duplicate :
  stable (Sample.only "http://new.example.org") /\
  passes (Sample.only "http://new.example.org") Sample.mirror_old = false /\
  passes (Sample.only "http://new.example.org") Sample.mirror_new = true /\
  disk (snd (loadServices (Sample.only "http://new.example.org")
               Sample.two_mirrors)) = Stored [Sample.mirror_old] /\
  fst (loadServices (Sample.only "http://new.example.org") Sample.two_mirrors) =
    Return [Node "Services" [Node "Mirror" [Node "MOD13Q1" []]]] /\
  ~ (forall remaining,
       disk (snd (loadServices (Sample.only "http://new.example.org")
                    Sample.two_mirrors)) = Stored remaining ->
       Forall (fun s => passes (Sample.only "http://new.example.org") s = true)
         remaining).
Proof.
  repeat split.
  intros A. specialize (A [Sample.mirror_old] eq_refl).
  inversion A as [|x r P]. discriminate P.
Qed.

(** ** Indices *)

Lemma increasing_app (a b : list Z) :
  StronglySorted Z.lt (a ++ b) <->
  StronglySorted Z.lt a /\ StronglySorted Z.lt b /\
  (forall x y, In x a -> In y b -> (x < y)%Z).
Proof.
  induction a as [|z a IH]; simpl.
  - split.
    + intros S. repeat split; [constructor|exact S|intros x y []].
    + now intros (_ & S & _).
  - split.
    + intros S. apply StronglySorted_inv in S. destruct S as [S F].
      apply IH in S. destruct S as (Sa & Sb & C).
      rewrite Forall_app in F. destruct F as [Fa Fb].
      repeat split; auto.
      * now constructor.
      * intros x y [<-|I] J; [|now apply C].
        rewrite Forall_forall in Fb. now apply Fb.
    + intros (Sa & Sb & C). apply StronglySorted_inv in Sa.
      destruct Sa as [Sa Fa]. constructor.
      * apply IH. repeat split; auto.
      * rewrite Forall_app. split; [exact Fa|].
        apply Forall_forall. intros y J. apply C; [now left|exact J].
Qed.

Lemma increasing_NoDup (l : list Z) : StronglySorted Z.lt l -> NoDup l.
Proof.
  induction l as [|z l IH]; intros S; constructor;
    apply StronglySorted_inv in S; destruct S as [S F].
  - intros I. rewrite Forall_forall in F. specialize (F z I). lia.
  - now apply IH.
Qed.

(** The index after the last one keeps the list increasing. *)
Lemma ids_increasing_add (l : list Service) (n h : string) :
  ids_increasing l -> ids_increasing (l ++ [mkService (next_index l) n h]).
Proof.
  unfold ids_increasing, next_index. rewrite map_app. simpl. intros S.
  apply increasing_app. repeat split; [exact S|repeat constructor|].
  intros x y Ix [<-|[]].
  destruct l as [|last l] using rev_ind; [destruct Ix|].
  rewrite rev_app_distr. simpl.
  rewrite map_app in S, Ix. simpl in S, Ix. apply increasing_app in S.
  destruct S as (_ & _ & C).
  apply in_app_or in Ix. destruct Ix as [Ix|[<-|[]]]; [|lia].
  specialize (C x (id last) Ix (or_introl eq_refl)). lia.
Qed.

(** Taking one entry out keeps the list increasing. *)
Lemma ids_increasing_remove (l1 l2 : list Service) (s : Service) :
  ids_increasing (l1 ++ s :: l2) -> ids_increasing (l1 ++ l2).
Proof.
  unfold ids_increasing. rewrite !map_app. simpl. intros S.
  apply increasing_app in S. destruct S as (S1 & S2 & C).
  apply StronglySorted_inv in S2. destruct S2 as [S2 _].
  apply increasing_app. repeat split; auto.
  intros x y Ix Iy. apply C; [exact Ix|now right].
Qed.

Lemma ids_increasing_nil : ids_increasing [].
Proof. constructor. Qed.

Lemma names_distinct_nil : names_distinct [].
Proof. constructor. Qed.

Lemma names_distinct_add (l : list Service) (n h : string) :
  names_distinct l -> registrations l n = O ->
  names_distinct (l ++ [mkService (next_index l) n h]).
Proof.
  unfold names_distinct. intros N R. rewrite map_app. simpl.
  apply NoDup_app; [exact N|repeat constructor; intros []|].
  intros x I [<-|[]].
  apply in_map_iff in I. destruct I as (s & E & I).
  rewrite registrations_zero in R. now apply (R s I).
Qed.

Lemma names_distinct_remove (l1 l2 : list Service) (s : Service) :
  names_distinct (l1 ++ s :: l2) -> names_distinct (l1 ++ l2).
Proof.
  unfold names_distinct. rewrite !map_app. simpl. apply NoDup_remove_1.
Qed.

(** Every method that writes the file keeps a property of the stored list
    that holds of the empty list, survives a new entry of a new name at the
    end with the next index, and survives the loss of one entry. *)
Section Preservation.

Variable net : Network.
Variable WTSS_HOST : string.
Variable P : list Service -> Prop.

Hypothesis P_nil : P [].
Hypothesis P_add :
  forall l n h,
    P l -> registrations l n = O -> P (l ++ [mkService (next_index l) n h]).
Hypothesis P_remove : forall l1 l2 s, P (l1 ++ s :: l2) -> P (l1 ++ l2).

Lemma after_satisfies (w : World) (requests : list Request) :
  stored_satisfies P w -> stored_satisfies P (after w requests).
Proof. intros W l E. now apply W. Qed.

Lemma addService_satisfies (n h : string) (w : World) :
  stored_satisfies P w -> stored_satisfies P (snd (addService net n h w)).
Proof.
  intros W. destruct (disk w) as [| |l] eqn:D.
  - rewrite addService_unreadable by (rewrite D; intros ?; discriminate).
    rewrite D. destruct (connects net (tick w) h); intros l' E;
      simpl in E; congruence.
  - rewrite addService_unreadable by (rewrite D; intros ?; discriminate).
    rewrite D. destruct (connects net (tick w) h); intros l' E; simpl in E.
    + injection E as <-. now apply (P_add [] n h).
    + congruence.
  - rewrite (addService_stored net n h w l D).
    destruct (find_loop l n) eqn:F; [|destruct (connects net (tick w) h)];
      intros l' E; simpl in E.
    + apply W. congruence.
    + injection E as <-. apply P_add; [now apply W|now apply find_loop_none].
    + apply W. congruence.
Qed.

Lemma deleteService_satisfies (n : string) (w : World) :
  stored_satisfies P w -> stored_satisfies P (snd (deleteService n w)).
Proof.
  intros W. destruct (disk w) as [| |l] eqn:D.
  - now rewrite deleteService_unreadable by (rewrite D; intros ?; discriminate).
  - now rewrite deleteService_unreadable by (rewrite D; intros ?; discriminate).
  - destruct (find_loop l n) as [s|] eqn:F.
    + destruct (deleteService_present n w l s D F) as (l1 & l2 & E & _ & ->).
      intros l' E'. simpl in E'. injection E' as <-.
      apply P_remove with s. rewrite <- E. now apply W.
    + now rewrite (deleteService_absent n w l D F).
Qed.

(** [editService] is [deleteService] and then [addService]. *)
Lemma editService_delete_add (n h : string) (w : World) :
  editService net n h w = addService net n h (snd (deleteService n w)).
Proof.
  unfold editService, bind at 1.
  destruct (disk w) as [| |l] eqn:D.
  - assert (U : unreadable (disk w)) by (rewrite D; intros ?; discriminate).
    now rewrite findServiceByName_unreadable, deleteService_unreadable.
  - assert (U : unreadable (disk w)) by (rewrite D; intros ?; discriminate).
    now rewrite findServiceByName_unreadable, deleteService_unreadable.
  - rewrite (findServiceByName_stored n w l D).
    destruct (find_loop l n) as [s|] eqn:F.
    + destruct (deleteService_present n w l s D F) as (l1 & l2 & _ & _ & E).
      unfold bind. now rewrite E.
    + now rewrite (deleteService_absent n w l D F).
Qed.

Lemma editService_satisfies (n h : string) (w : World) :
  stored_satisfies P w -> stored_satisfies P (snd (editService net n h w)).
Proof.
  intros W. rewrite editService_delete_add.
  now apply addService_satisfies, deleteService_satisfies.
Qed.

(** [getServiceNames] returns and leaves the file alone. *)
Lemma getServiceNames_loop_disk (services : list Service) :
  forall (service_names : list string) (w : World),
    exists names w',
      getServiceNames_loop net services service_names w = (Return names, w') /\
      disk w' = disk w.
Proof.
  induction services as [|server rest IH]; intros service_names w; simpl.
  - exists service_names, w. split; reflexivity.
  - unfold bind. rewrite testServiceConnection_run.
    destruct (connects net (tick w) (host server));
      [destruct (IH (service_names ++ [name server])
                   (after w [ListCoverages (host server)]))
         as (names & w' & -> & D)
      |destruct (IH service_names (after w [ListCoverages (host server)]))
         as (names & w' & -> & D)];
      exists names, w'; split; auto.
Qed.

Lemma getServiceNames_disk (w : World) :
  exists names w',
    getServiceNames net w = (Return names, w') /\ disk w' = disk w.
Proof.
  unfold getServiceNames, try_except, bind.
  destruct (disk w) as [| |l] eqn:D.
  - rewrite getServices_unreadable by (rewrite D; intros ?; discriminate).
    exists [], w. split; auto.
  - rewrite getServices_unreadable by (rewrite D; intros ?; discriminate).
    exists [], w. split; auto.
  - rewrite (getServices_stored w l D).
    destruct (getServiceNames_loop_disk l [] w) as (names & w' & -> & E).
    exists names, w'. split; [reflexivity|congruence].
Qed.

Lemma resetAvailableServices_satisfies (w : World) :
  stored_satisfies P w ->
  stored_satisfies P (snd (resetAvailableServices net WTSS_HOST w)).
Proof.
  intros W. unfold resetAvailableServices, bind at 1.
  pose proof (addService_satisfies "Brazil Data Cube" WTSS_HOST w W) as W1.
  destruct (addService net "Brazil Data Cube" WTSS_HOST w) as [[r|e] w1];
    [|exact W1].
  cbn [snd] in W1. unfold bind.
  destruct (getServiceNames_disk w1) as (names & w2 & -> & D).
  destruct names as [|x names].
  - unfold json_dump. destruct (disk w2) eqn:E; intros l' E'; simpl in E'.
    + congruence.
    + now injection E' as <-.
    + now injection E' as <-.
  - intros l' E. simpl in E. apply W1. congruence.
Qed.

Lemma init_satisfies (w : World) :
  stored_satisfies P w -> stored_satisfies P (snd (init net WTSS_HOST w)).
Proof.
  intros W. unfold init, try_except, bind.
  destruct (disk w) as [| |l] eqn:D.
  - rewrite getServices_unreadable by (rewrite D; intros ?; discriminate).
    simpl. now apply resetAvailableServices_satisfies.
  - rewrite getServices_unreadable by (rewrite D; intros ?; discriminate).
    simpl. now apply resetAvailableServices_satisfies.
  - now rewrite (getServices_stored w l D).
Qed.

Lemma loadServices_loop_satisfies (services : list Service) :
  forall (servers : list Tree) (w : World),
    stored_satisfies P w ->
    stored_satisfies P (snd (loadServices_loop net services servers w)).
Proof.
  induction services as [|server rest IH]; intros servers w W; [exact W|].
  cbn [loadServices_loop]. rewrite testServiceConnection_run.
  destruct (connects net (tick w) (host server)).
  - unfold coverages, remote.
    destruct (wtss_coverages net _ (host server)); [|exact W].
    apply IH. intros l' E. now apply W.
  - pose proof (deleteService_satisfies (name server) _
                  (after_satisfies w [ListCoverages (host server)] W)) as W1.
    destruct (deleteService (name server) _) as [[r|e] w1]; [|exact W1].
    now apply IH.
Qed.

Lemma loadServices_satisfies (w : World) :
  stored_satisfies P w -> stored_satisfies P (snd (loadServices net w)).
Proof.
  intros W. unfold loadServices.
  destruct (getServices w) as [[services|e] w1] eqn:G.
  - assert (E1 : w1 = w).
    { unfold getServices in G. destruct (disk w); congruence. }
    subst w1.
    pose proof (loadServices_loop_satisfies services [] w W) as W1.
    destruct (loadServices_loop net services [] w) as [[[e|] servers] w2];
      [destruct (file_errors e)|]; exact W1.
  - assert (E1 : w1 = w).
    { unfold getServices in G. destruct (disk w); congruence. }
    subst w1. now destruct (file_errors e).
Qed.

Lemma reachable_satisfies (w : World) :
  reachable net WTSS_HOST w -> stored_satisfies P w.
Proof.
  induction 1 as [requests|w U|w n h _ IH|w n _ IH|w n h _ IH|w _ IH|w _ IH].
  - intros l E. simpl in E. now injection E as <-.
  - apply init_satisfies. intros l E. exfalso. now apply (U l).
  - now apply addService_satisfies.
  - now apply deleteService_satisfies.
  - now apply editService_satisfies.
  - now apply loadServices_satisfies.
  - now apply resetAvailableServices_satisfies.
Qed.

End Preservation.

(** The lists the interface builds hold every name once, so what is said
    below of such lists holds in every reachable state. *)
Lemma reachable_names_distinct (net : Network) (WTSS_HOST : string)
    (w : World) (l : list Service) :
  reachable net WTSS_HOST w -> disk w = Stored l ->
  names_distinct l /\ forall s, In s l -> registrations l (name s) = 1%nat.
Proof.
  intros R D.
  assert (N : names_distinct l).
  { apply (reachable_satisfies net WTSS_HOST names_distinct names_distinct_nil
             names_distinct_add names_distinct_remove w R l D). }
  split; [exact N|].
  intros s I. apply in_split in I. destruct I as (a & b & ->).
  destruct (NoDup_names_middle a b s N) as (_ & Rb & Nab).
  rewrite registrations_app, registrations_cons, String.eqb_refl, Rb.
  assert (Ra : registrations a (name s) = O).
  { apply registrations_zero. intros x I E.
    unfold names_distinct in N. rewrite map_app in N. simpl in N.
    apply NoDup_remove_2 in N. apply N, in_or_app. left.
    rewrite <- E. now apply in_map. }
  rewrite Ra. reflexivity.
Qed.

(** C8. In every state reached from an empty or default list through
    [addService], [deleteService] and [editService] (and through
    [loadServices] and [resetAvailableServices], which also write the
    file), the indices of the stored list increase strictly, so no two
    entries share one.
    [addService] gives a new entry the index of the last entry plus one, 0
    on the empty list, and puts it last; [deleteService] takes one entry
    out and keeps the others in their order. *)
Theorem reachable_ids_increasing (net : Network) (WTSS_HOST : string) :
  (forall w l,
     reachable net WTSS_HOST w -> disk w = Stored l ->
     StronglySorted Z.lt (map id l) /\ NoDup (map id l)) /\
  (forall w l n h,
     disk w = Stored l ->
     disk (snd (addService net n h w)) <> Stored l ->
     exists index,
       disk (snd (addService net n h w)) = Stored (l ++ [mkService index n h]) /\
       (l = [] -> index = 0%Z) /\
       (forall front last, l = front ++ [last] -> index = (id last + 1)%Z)) /\
  (forall w l n,
     disk w = Stored l ->
     disk (snd (deleteService n w)) <> Stored l ->
     exists l1 s l2,
       l = l1 ++ s :: l2 /\ disk (snd (deleteService n w)) = Stored (l1 ++ l2)).
Proof.
  split; [|split].
  - intros w l R D.
    pose proof (reachable_satisfies net WTSS_HOST ids_increasing ids_increasing_nil
                  (fun l n h I _ => ids_increasing_add l n h I)
                  ids_increasing_remove w R l D) as S.
    split; [exact S|now apply increasing_NoDup].
  - intros w l n h D.
    rewrite (addService_stored net n h w l D).
    destruct (find_loop l n); [|destruct (connects net (tick w) h)]; simpl;
      try congruence.
    intros _. exists (next_index l). split; [reflexivity|]. split.
    + now intros ->.
    + intros front last ->. unfold next_index.
      now rewrite rev_app_distr.
  - intros w l n D.
    destruct (find_loop l n) as [s|] eqn:F.
    + destruct (deleteService_present n w l s D F) as (l1 & l2 & E & _ & ->).
      intros _. now exists l1, s, l2.
    + rewrite (deleteService_absent n w l D F). simpl. congruence.
Qed.

Lemma reachable_ids_increasing_witness :
  (StronglySorted Z.lt
     (map id [Sample.lab; mkService 2 "Brazil Data Cube" "http://b"]) /\
   NoDup (map id [Sample.lab; mkService 2 "Brazil Data Cube" "http://b"])) /\
  (exists index,
     disk (snd (addService Sample.up "Lab" "http://localhost:5000"
                  (Sample.file [Sample.bdc]))) =
       Stored ([Sample.bdc] ++ [mkService index "Lab" "http://localhost:5000"]) /\
     ([Sample.bdc] = [] -> index = 0%Z) /\
     (forall front last,
        [Sample.bdc] = front ++ [last] -> index = (id last + 1)%Z)) /\
  (exists l1 s l2,
     [Sample.bdc; Sample.lab] = l1 ++ s :: l2 /\
     disk (snd (deleteService "Lab" (Sample.file [Sample.bdc; Sample.lab]))) =
       Stored (l1 ++ l2)).
Proof.
  destruct (reachable_ids_increasing Sample.up "https://data.inpe.br/bdc/wtss/v4")
    as (Invariant & Add & Delete).
  split; [|split].
  - apply (Invariant
             (snd (editService Sample.up "Brazil Data Cube" "http://b"
                     (snd (addService Sample.up "Lab" "http://localhost:5000"
                             (snd (init Sample.up "https://data.inpe.br/bdc/wtss/v4"
                                     (mkWorld NoFile []))))))));
      [|reflexivity].
    apply reach_edit, reach_add, reach_default.
    intros l. discriminate.
  - apply (Add (Sample.file [Sample.bdc])); [reflexivity|discriminate].
  - apply (Delete (Sample.file [Sample.bdc; Sample.lab]));
      [reflexivity|discriminate].
Defined.

(** ** Coordinates *)

(** C9. Whatever the projection and the coordinates, a record that
    [transformProjection] returns has the field ["crs"] equal to
    ["EPSG:4326"]; and it returns such a record, with the coordinates
    [pyproj] computed, whenever the calls to [pyproj] return. *)
Theorem transformProjection_crs (pyproj : Pyproj) (projection : string)
    (latitude longitude : float) :
  (forall point,
     transformProjection pyproj projection latitude longitude = Return point ->
     crs point = "EPSG:4326") /\
  (forall source_crs source target_crs target x y,
     CRS_from_string pyproj projection = Return source_crs ->
     Proj_init pyproj source_crs = Return source ->
     CRS_from_string pyproj "EPSG:4326" = Return target_crs ->
     Proj_init pyproj target_crs = Return target ->
     transform pyproj source target latitude longitude = Return (x, y) ->
     transformProjection pyproj projection latitude longitude =
       Return (mkPoint x y "EPSG:4326")).
Proof.
  unfold transformProjection, and_then. split.
  - intros point.
    destruct (CRS_from_string pyproj projection) as [source_crs|]; [|discriminate].
    destruct (Proj_init pyproj source_crs) as [source|]; [|discriminate].
    destruct (CRS_from_string pyproj "EPSG:4326") as [target_crs|]; [|discriminate].
    destruct (Proj_init pyproj target_crs) as [target|]; [|discriminate].
    destruct (transform pyproj source target latitude longitude) as [xy|];
      [|discriminate].
    now intros [= <-].
  - intros source_crs source target_crs target x y -> -> -> -> ->. reflexivity.
Qed.

Lemma transformProjection_crs_witness :
  crs (mkPoint 1.5%float 2%float "EPSG:4326") = "EPSG:4326" /\
  transformProjection Sample.epsg_only "EPSG:4326" 1.5%float 2%float =
    Return (mkPoint 1.5%float 2%float "EPSG:4326").
Proof.
  destruct (transformProjection_crs Sample.epsg_only "EPSG:4326"
              1.5%float 2%float) as [Field Returns].
  split.
  - apply Field. reflexivity.
  - apply (Returns "EPSG:4326" "EPSG:4326" "EPSG:4326" "EPSG:4326");
      reflexivity.
Defined.

(** When [pyproj] rejects the projection, so does [transformProjection]. *)
Lemma transformProjection_unknown_projection :
  transformProjection Sample.epsg_only "somewhere" 1.5%float 2%float =
  Raise ProjError.
Proof. reflexivity. Qed.

(** * Further properties of the controller *)

(** ** Looking a name up *)

Lemma find_loop_last (l : list Service) (n : string) (s : Service) :
  find_loop l n = Some s ->
  exists a b, l = a ++ s :: b /\ name s = n /\ registrations b n = O.
Proof.
  induction l as [|x l IH] using rev_ind; [discriminate|].
  rewrite find_loop_app. destruct (String.eqb (name x) n) eqn:E.
  - intros [= <-]. exists l, []. split; [reflexivity|].
    split; [now apply String.eqb_eq|reflexivity].
  - intros F. destruct (IH F) as (a & b & -> & Hn & R).
    exists a, (b ++ [x]). rewrite <- app_assoc. repeat split; auto.
    rewrite registrations_app, registrations_cons, E, R. reflexivity.
Qed.

(** X1. [findServiceByName] neither raises nor changes anything.  On a
    stored list it returns [None] exactly when no entry has the name, and
    otherwise the last entry of that name. *)
Theorem findServiceByName_last_match (n : string) (w : World)
    (l : list Service) :
  disk w = Stored l ->
  exists found,
    findServiceByName n w = (Return found, w) /\
    (found = None <-> registrations l n = O) /\
    (forall s, found = Some s ->
       exists a b, l = a ++ s :: b /\ name s = n /\ registrations b n = O).
Proof.
  intros H. exists (find_loop l n).
  split; [now apply findServiceByName_stored|].
  split; [apply find_loop_none|].
  intros s F. now apply find_loop_last.
Qed.

Lemma findServiceByName_last_match_witness :
  exists found,
    findServiceByName "Mirror" Sample.two_mirrors =
      (Return found, Sample.two_mirrors) /\
    (found = None <->
     registrations [Sample.mirror_old; Sample.mirror_new] "Mirror" = O) /\
    (forall s, found = Some s ->
       exists a b,
         [Sample.mirror_old; Sample.mirror_new] = a ++ s :: b /\
         name s = "Mirror" /\ registrations b "Mirror" = O).
Proof.
  apply (findServiceByName_last_match "Mirror" Sample.two_mirrors
           [Sample.mirror_old; Sample.mirror_new]).
  reflexivity.
Defined.

(** ** Methods that only read the file *)

Section ReadsOnly.

Variable net : Network.

Lemma reads_only_ret {A} (a : A) : reads_only (ret a).
Proof. intros w. reflexivity. Qed.

Lemma reads_only_lift {A} (o : Outcome A) : reads_only (lift o).
Proof. intros w. reflexivity. Qed.

Lemma reads_only_bind {A B} (m : M A) (k : A -> M B) :
  reads_only m -> (forall a, reads_only (k a)) -> reads_only (bind m k).
Proof.
  intros Hm Hk w. unfold bind. specialize (Hm w).
  destruct (m w) as [[a|e] w1]; simpl in *; [|exact Hm].
  now rewrite Hk.
Qed.

Lemma reads_only_try_except {A} (body handler : M A)
    (classes : Exception -> bool) :
  reads_only body -> reads_only handler ->
  reads_only (try_except body classes handler).
Proof.
  intros Hb Hh w. unfold try_except. specialize (Hb w).
  destruct (body w) as [[a|e] w1]; simpl in *; [exact Hb|].
  destruct (classes e); [now rewrite Hh|exact Hb].
Qed.

Lemma reads_only_getServices : reads_only getServices.
Proof. intros w. unfold getServices. now destruct (disk w) eqn:E. Qed.

Lemma reads_only_remote {A} (q : Request) (answer : nat -> option A) :
  reads_only (remote q answer).
Proof. intros w. unfold remote. now destruct (answer (tick w)). Qed.

Lemma reads_only_testServiceConnection (h : string) :
  reads_only (testServiceConnection net h).
Proof.
  apply reads_only_try_except; [|apply reads_only_ret].
  apply reads_only_bind; [apply reads_only_remote|].
  intros _. apply reads_only_ret.
Qed.

Lemma reads_only_findServiceByName (n : string) :
  reads_only (findServiceByName n).
Proof.
  apply reads_only_try_except; [|apply reads_only_ret].
  apply reads_only_bind; [apply reads_only_getServices|].
  intros l. apply reads_only_ret.
Qed.

Lemma reads_only_getServiceNames_loop (services : list Service) :
  forall names, reads_only (getServiceNames_loop net services names).
Proof.
  induction services as [|server rest IH]; intros names; simpl.
  - apply reads_only_ret.
  - apply reads_only_bind; [apply reads_only_testServiceConnection|].
    intros [|]; apply IH.
Qed.

End ReadsOnly.

(** X2. No query and no listing writes the storage file, whatever the
    file, the network and the outcome of the call: [findServiceByName],
    [getServicesDict], [getServiceNames], [testServiceConnection],
    [listProducts], [productDescription] and [productTimeSeries]. *)
Theorem queries_read_only (net : Network)
    (strptime : value -> string -> Outcome Date)
    (n product : string) (bands : list string) (lon lat : float)
    (start_date end_date : string) :
  reads_only (findServiceByName n) /\
  reads_only getServicesDict /\
  reads_only (getServiceNames net) /\
  reads_only (testServiceConnection net n) /\
  reads_only (listProducts net n) /\
  reads_only (productDescription net n product) /\
  reads_only (productTimeSeries net strptime n product bands lon lat
                start_date end_date).
Proof.
  repeat split.
  - apply reads_only_findServiceByName.
  - apply reads_only_try_except; [|apply reads_only_ret].
    apply reads_only_bind; [apply reads_only_getServices|].
    intros l. apply reads_only_ret.
  - apply reads_only_try_except; [|apply reads_only_ret].
    apply reads_only_bind; [apply reads_only_getServices|].
    intros l. apply reads_only_getServiceNames_loop.
  - apply reads_only_testServiceConnection.
  - apply reads_only_bind; [apply reads_only_findServiceByName|].
    intros found. apply reads_only_bind; [apply reads_only_lift|].
    intros h. apply reads_only_bind; [apply reads_only_testServiceConnection|].
    intros [|]; [apply reads_only_remote|apply reads_only_ret].
  - apply reads_only_bind; [apply reads_only_findServiceByName|].
    intros found. apply reads_only_bind; [apply reads_only_lift|].
    intros h. apply reads_only_bind; [apply reads_only_testServiceConnection|].
    intros [|]; [|apply reads_only_ret].
    apply reads_only_bind; [apply reads_only_remote|].
    intros cv. apply reads_only_ret.
  - apply reads_only_bind; [apply reads_only_findServiceByName|].
    intros found. apply reads_only_bind; [apply reads_only_lift|].
    intros h. apply reads_only_bind; [apply reads_only_testServiceConnection|].
    intros [|].
    + apply reads_only_try_except; [|apply reads_only_ret].
      apply reads_only_bind; [apply reads_only_remote|].
      intros cv. apply reads_only_bind; [apply reads_only_remote|].
      intros series. apply reads_only_ret.
    + apply reads_only_bind; [apply reads_only_findServiceByName|].
      intros found'. apply reads_only_bind; [apply reads_only_lift|].
      intros h'. apply reads_only_bind; [apply reads_only_remote|].
      intros response.
      destruct (status_code response =? 200)%Z; [|apply reads_only_ret].
      apply reads_only_bind; [apply reads_only_lift|].
      intros v. apply reads_only_ret.
Qed.

(** ** Queries for a name that is not registered *)

Lemma findServiceByName_absent (n : string) (w : World) :
  unreadable (disk w) \/
  (exists l, disk w = Stored l /\ registrations l n = O) ->
  findServiceByName n w = (Return None, w).
Proof.
  intros [U|(l & H & R)].
  - now apply findServiceByName_unreadable.
  - rewrite (findServiceByName_stored n w l H).
    apply find_loop_none in R. now rewrite R.
Qed.

(** X3. A query for a name that is not registered, or on a file that
    cannot be read, raises [AttributeError] before any request is sent. *)
Theorem queries_unregistered_name (net : Network)
    (strptime : value -> string -> Outcome Date)
    (n product : string) (bands : list string) (lon lat : float)
    (start_date end_date : string) (w : World) :
  unreadable (disk w) \/
  (exists l, disk w = Stored l /\ registrations l n = O) ->
  listProducts net n w = (Raise AttributeError, w) /\
  productDescription net n product w = (Raise AttributeError, w) /\
  productTimeSeries net strptime n product bands lon lat start_date end_date w =
    (Raise AttributeError, w).
Proof.
  intros A. pose proof (findServiceByName_absent n w A) as F.
  unfold listProducts, productDescription, productTimeSeries, bind.
  rewrite F. repeat split.
Qed.

Lemma queries_unregistered_name_witness :
  listProducts Sample.up "Nobody" Sample.two_services =
    (Raise AttributeError, Sample.two_services) /\
  productDescription Sample.up "Nobody" "MOD13Q1" Sample.two_services =
    (Raise AttributeError, Sample.two_services) /\
  productTimeSeries Sample.up Sample.module_strptime "Nobody" "MOD13Q1"
    ["NDVI"] (-54)%float (-12)%float "2020-01-01" "2020-12-31"
    Sample.two_services = (Raise AttributeError, Sample.two_services).
Proof.
  apply (queries_unregistered_name Sample.up Sample.module_strptime "Nobody"
           "MOD13Q1" ["NDVI"] (-54)%float (-12)%float "2020-01-01" "2020-12-31"
           Sample.two_services).
  right. exists [Sample.bdc; Sample.lab]. split; reflexivity.
Defined.

(** ** The methods that write the file *)

Lemma disk_cases (w : World) :
  unreadable (disk w) \/ exists l, disk w = Stored l.
Proof.
  destruct (disk w) as [| |l] eqn:D.
  - left. intros l. discriminate.
  - left. intros l. discriminate.
  - right. now exists l.
Qed.

Lemma deleteService_returns (n : string) (w : World) :
  exists r w',
    deleteService n w = (Return r, w') /\ sent w' = sent w.
Proof.
  destruct (disk_cases w) as [U|(l & D)].
  - exists None, w. split; [now apply deleteService_unreadable|reflexivity].
  - destruct (find_loop l n) as [s|] eqn:F.
    + destruct (deleteService_present n w l s D F) as (l1 & l2 & _ & _ & ->).
      eexists _, _. split; reflexivity.
    + exists None, w. split; [now apply (deleteService_absent n w l)|reflexivity].
Qed.

Lemma addService_returns (net : Network) (n h : string) (w : World) :
  exists r w',
    addService net n h w = (Return r, w') /\
    sent w' = sent w ++ [ListCoverages h].
Proof.
  destruct (disk_cases w) as [U|(l & D)].
  - rewrite (addService_unreadable net n h w U).
    destruct (connects net (tick w) h); [destruct (disk w)|];
      eexists _, _; split; reflexivity.
  - rewrite (addService_stored net n h w l D).
    destruct (find_loop l n); [|destruct (connects net (tick w) h)];
      eexists _, _; split; reflexivity.
Qed.

(** X4. [editService] is [deleteService] followed by [addService], on
    every file and network: the test [if server_to_edit != None] changes
    nothing, because deleting a name that is not registered does
    nothing. *)
Theorem editService_is_delete_then_add (net : Network) (n h : string)
    (w : World) :
  editService net n h w = (deleteService n ;; addService net n h) w.
Proof.
  rewrite editService_delete_add. unfold bind.
  destruct (deleteService_returns n w) as (r & w' & -> & _). reflexivity.
Qed.

(** X5. With the storage file in one of the states the methods provide
    for, which are a missing directory, a missing file, and a list of
    services that can be read and written, [addService], [deleteService]
    and [editService] return and do not raise.  [deleteService] contacts
    no service; [addService] and [editService] send the connection test
    for the host they are given and nothing else. *)
Theorem storage_methods_return (net : Network) (n h : string) (w : World) :
  disk w = NoDirectory \/ disk w = NoFile \/ (exists l, disk w = Stored l) ->
  (exists r, fst (addService net n h w) = Return r) /\
  (exists r, fst (deleteService n w) = Return r) /\
  (exists r, fst (editService net n h w) = Return r) /\
  sent (snd (deleteService n w)) = sent w /\
  sent (snd (addService net n h w)) = sent w ++ [ListCoverages h] /\
  sent (snd (editService net n h w)) = sent w ++ [ListCoverages h].
Proof.
  intros _.
  assert (E : exists r w',
               editService net n h w = (Return r, w') /\
               sent w' = sent w ++ [ListCoverages h]).
  { rewrite editService_delete_add.
    destruct (deleteService_returns n w) as (r & w1 & -> & S1). cbn [snd].
    destruct (addService_returns net n h w1) as (r' & w2 & -> & S2).
    exists r', w2. split; [reflexivity|]. simpl in S2. now rewrite S2, S1. }
  destruct E as (re & we & -> & Se).
  destruct (addService_returns net n h w) as (ra & wa & -> & Sa).
  destruct (deleteService_returns n w) as (rd & wd & -> & Sd).
  cbn [fst snd]. repeat split; eauto.
Qed.

Lemma storage_methods_return_witness :
  (exists r, fst (addService Sample.up "Lab" "http://localhost:5000"
                    (mkWorld NoDirectory [])) = Return r) /\
  (exists r, fst (deleteService "Lab" (mkWorld NoDirectory [])) = Return r) /\
  (exists r, fst (editService Sample.up "Lab" "http://localhost:5000"
                    (mkWorld NoDirectory [])) = Return r) /\
  sent (snd (deleteService "Lab" (mkWorld NoDirectory []))) = [] /\
  sent (snd (addService Sample.up "Lab" "http://localhost:5000"
               (mkWorld NoDirectory []))) =
    [] ++ [ListCoverages "http://localhost:5000"] /\
  sent (snd (editService Sample.up "Lab" "http://localhost:5000"
               (mkWorld NoDirectory []))) =
    [] ++ [ListCoverages "http://localhost:5000"].
Proof.
  apply (storage_methods_return Sample.up "Lab" "http://localhost:5000"
           (mkWorld NoDirectory [])).
  left. reflexivity.
Defined.

Lemma names_distinct_others (a b : list Service) (s : Service) :
  names_distinct (a ++ s :: b) -> registrations (a ++ b) (name s) = O.
Proof.
  intros N. apply registrations_zero. intros x I E.
  unfold names_distinct in N. rewrite map_app in N. simpl in N.
  apply NoDup_remove_2 in N. apply N. rewrite <- map_app, <- E.
  now apply in_map.
Qed.

(** X6. Editing a registered service whose new host passes the connection
    test, on a list of distinct names: the entry leaves its place and a
    new entry with the name, the new host and the index after the last
    one is put at the end; the other entries keep their order. *)
Theorem editService_moves_entry (net : Network) (h : string) (w : World)
    (a b : list Service) (s : Service) :
  disk w = Stored (a ++ s :: b) ->
  names_distinct (a ++ s :: b) ->
  connects net (tick w) h = true ->
  editService net (name s) h w =
  (Return (Some (mkService (next_index (a ++ b)) (name s) h)),
   mkWorld (Stored ((a ++ b) ++ [mkService (next_index (a ++ b)) (name s) h]))
           (sent w ++ [ListCoverages h])).
Proof.
  intros D N C. rewrite editService_delete_add.
  rewrite (deleteService_unique a b s w D N). cbn [snd].
  erewrite addService_stored by reflexivity.
  pose proof (names_distinct_others a b s N) as R.
  apply find_loop_none in R. rewrite R.
  unfold tick in *. simpl. now rewrite C.
Qed.

Lemma editService_moves_entry_witness :
  editService Sample.up "Brazil Data Cube" "http://b" Sample.two_services =
  (Return (Some (mkService 2 "Brazil Data Cube" "http://b")),
   mkWorld (Stored [Sample.lab; mkService 2 "Brazil Data Cube" "http://b"])
           [ListCoverages "http://b"]).
Proof.
  apply (editService_moves_entry Sample.up "http://b" Sample.two_services
           [] [Sample.lab] Sample.bdc).
  - reflexivity.
  - repeat constructor; simpl; intuition discriminate.
  - reflexivity.
Defined.

(** X7. Registering a new name and deleting it again gives back the
    stored list as it was. *)
Theorem add_then_delete_restores (net : Network) (n h : string) (w : World)
    (l : list Service) :
  disk w = Stored l ->
  registrations l n = O ->
  connects net (tick w) h = true ->
  fst (deleteService n (snd (addService net n h w))) =
    Return (Some (mkService (next_index l) n h)) /\
  disk (snd (deleteService n (snd (addService net n h w)))) = Stored l.
Proof.
  intros D R C. rewrite (addService_stored net n h w l D).
  pose proof R as F. apply find_loop_none in F. rewrite F, C. cbn [snd].
  unfold deleteService, try_except, bind.
  erewrite findServiceByName_stored by reflexivity.
  pose proof (find_loop_unique l [] (mkService (next_index l) n h)) as U.
  simpl in U. rewrite U by reflexivity.
  erewrite getServices_stored by reflexivity. unfold lift.
  rewrite list_index_middle, list_pop_middle, app_nil_r.
  - split; reflexivity.
  - intros I. rewrite registrations_zero in R. now apply (R _ I).
Qed.

Lemma add_then_delete_restores_witness :
  fst (deleteService "Lab"
         (snd (addService Sample.up "Lab" "http://localhost:5000"
                 (Sample.file [Sample.bdc])))) =
    Return (Some (mkService 1 "Lab" "http://localhost:5000")) /\
  disk (snd (deleteService "Lab"
               (snd (addService Sample.up "Lab" "http://localhost:5000"
                       (Sample.file [Sample.bdc]))))) = Stored [Sample.bdc].
Proof.
  apply (add_then_delete_restores Sample.up "Lab" "http://localhost:5000"
           (Sample.file [Sample.bdc]) [Sample.bdc]); reflexivity.
Defined.

(** X8. [deleteService] on a stored list: a name that is not registered
    leaves the list alone and gives [None]; a registered name gives the
    last entry of that name and takes exactly one entry of that name out, so
    the number of entries under every other name is what it was. *)
Theorem deleteService_removes_one (n : string) (w : World)
    (l : list Service) :
  disk w = Stored l ->
  exists l',
    disk (snd (deleteService n w)) = Stored l' /\
    (registrations l n = O ->
     l' = l /\ fst (deleteService n w) = Return None) /\
    (registrations l n <> O ->
     (exists s, fst (deleteService n w) = Return (Some s) /\
                find_loop l n = Some s /\ name s = n) /\
     S (List.length l') = List.length l /\
     S (registrations l' n) = registrations l n /\
     forall m, m <> n -> registrations l' m = registrations l m).
Proof.
  intros D. destruct (find_loop l n) as [s|] eqn:F.
  - destruct (deleteService_present n w l s D F) as (l1 & l2 & E & _ & ->).
    destruct (find_loop_some _ _ _ F) as [_ Hn].
    exists (l1 ++ l2). split; [reflexivity|]. split.
    + intros R. apply find_loop_none in R. congruence.
    + intros _. split; [now exists s|]. subst l.
      rewrite !length_app. simpl. split; [lia|].
      rewrite !registrations_app, registrations_cons.
      split.
      * replace (String.eqb (name s) n) with true
          by (symmetry; now apply String.eqb_eq). lia.
      * intros m Hm. rewrite !registrations_app, registrations_cons.
        replace (String.eqb (name s) m) with false; [reflexivity|].
        symmetry. apply String.eqb_neq. congruence.
  - rewrite (deleteService_absent n w l D F). exists l.
    split; [exact D|]. split; [auto|].
    intros R. apply find_loop_none in F. contradiction.
Qed.

Lemma deleteService_removes_one_witness :
  exists l',
    disk (snd (deleteService "Mirror" Sample.two_mirrors)) = Stored l' /\
    (registrations [Sample.mirror_old; Sample.mirror_new] "Mirror" = O ->
     l' = [Sample.mirror_old; Sample.mirror_new] /\
     fst (deleteService "Mirror" Sample.two_mirrors) = Return None) /\
    (registrations [Sample.mirror_old; Sample.mirror_new] "Mirror" <> O ->
     (exists s, fst (deleteService "Mirror" Sample.two_mirrors) = Return (Some s) /\
                find_loop [Sample.mirror_old; Sample.mirror_new] "Mirror" = Some s /\
                name s = "Mirror") /\
     S (List.length l') = List.length [Sample.mirror_old; Sample.mirror_new] /\
     S (registrations l' "Mirror") =
       registrations [Sample.mirror_old; Sample.mirror_new] "Mirror" /\
     forall m, m <> "Mirror" ->
       registrations l' m =
       registrations [Sample.mirror_old; Sample.mirror_new] m).
Proof.
  apply (deleteService_removes_one "Mirror" Sample.two_mirrors
           [Sample.mirror_old; Sample.mirror_new]).
  reflexivity.
Defined.

(** X9. In every state the interface leads to, no name is registered
    twice: each stored entry is the only one of its name. *)
Theorem reachable_names_registered_once (net : Network) (WTSS_HOST : string)
    (w : World) (l : list Service) :
  reachable net WTSS_HOST w ->
  disk w = Stored l ->
  NoDup (map name l) /\
  forall s, In s l -> registrations l (name s) = 1%nat.
Proof.
  intros R D. exact (reachable_names_distinct net WTSS_HOST w l R D).
Qed.

Lemma reachable_names_registered_once_witness :
  NoDup (map name [Sample.lab; mkService 2 "Brazil Data Cube" "http://b"]) /\
  forall s,
    In s [Sample.lab; mkService 2 "Brazil Data Cube" "http://b"] ->
    registrations [Sample.lab; mkService 2 "Brazil Data Cube" "http://b"]
      (name s) = 1%nat.
Proof.
  apply (reachable_names_registered_once Sample.up
           "https://data.inpe.br/bdc/wtss/v4"
           (snd (editService Sample.up "Brazil Data Cube" "http://b"
                   (snd (addService Sample.up "Lab" "http://localhost:5000"
                           (snd (init Sample.up "https://data.inpe.br/bdc/wtss/v4"
                                   Sample.no_file))))))).
  - apply reach_edit, reach_add, reach_default. intros l. discriminate.
  - reflexivity.
Defined.

(** ** Listing the names, and the default list *)

Lemma after_twice (w : World) (a b : list Request) :
  after (after w a) b = after w (a ++ b).
Proof. unfold after. simpl. now rewrite app_assoc. Qed.

Lemma after_nothing (w : World) : after w [] = w.
Proof. unfold after. rewrite app_nil_r. now destruct w. Qed.

Lemma bind_return {A B} (m : M A) (k : A -> M B) (w : World) (a : A)
    (w' : World) :
  m w = (Return a, w') -> bind m k w = k a w'.
Proof. intros E. unfold bind. now rewrite E. Qed.

Lemma getServiceNames_loop_run (net : Network) (services : list Service) :
  forall (names : list string) (w : World),
    exists result,
      getServiceNames_loop net services names w =
        (Return result, after w (connection_tests services)) /\
      (stable net ->
       result = names ++ map name (filter (passes net) services)).
Proof.
  induction services as [|server rest IH]; intros names w; simpl.
  - exists names. rewrite after_nothing, app_nil_r. split; auto.
  - unfold bind. rewrite testServiceConnection_run.
    destruct (connects net (tick w) (host server)) eqn:C.
    + destruct (IH (names ++ [name server])
                  (after w [ListCoverages (host server)])) as (r & -> & St).
      exists r. rewrite after_twice. split; [reflexivity|].
      intros S. unfold passes. unfold connects in C. rewrite S in C.
      fold (connects net O (host server)) in C. rewrite C.
      rewrite (St S). simpl. now rewrite <- app_assoc.
    + destruct (IH names (after w [ListCoverages (host server)]))
        as (r & -> & St).
      exists r. rewrite after_twice. split; [reflexivity|].
      intros S. unfold passes. unfold connects in C. rewrite S in C.
      fold (connects net O (host server)) in C. rewrite C.
      exact (St S).
Qed.

(** X10. On a stored list [getServiceNames] sends one connection test per
    stored service, in the order of the list, and leaves the file alone;
    with services that answer the same way at all times it returns the
    names of the services that pass, in the order of the list. *)
Theorem getServiceNames_tests_each (net : Network) (w : World)
    (l : list Service) :
  disk w = Stored l ->
  exists names,
    getServiceNames net w = (Return names, after w (connection_tests l)) /\
    (stable net -> names = map name (filter (passes net) l)).
Proof.
  intros D. unfold getServiceNames, try_except, bind.
  rewrite (getServices_stored w l D).
  destruct (getServiceNames_loop_run net l [] w) as (r & -> & St).
  exists r. split; [reflexivity|exact St].
Qed.

Lemma getServiceNames_tests_each_witness :
  exists names,
    getServiceNames (Sample.only "http://localhost:5000") Sample.two_services =
      (Return names,
       after Sample.two_services
         (connection_tests [Sample.bdc; Sample.lab])) /\
    (stable (Sample.only "http://localhost:5000") ->
     names = map name (filter (passes (Sample.only "http://localhost:5000"))
                         [Sample.bdc; Sample.lab])).
Proof.
  apply (getServiceNames_tests_each (Sample.only "http://localhost:5000")
           Sample.two_services [Sample.bdc; Sample.lab]).
  reflexivity.
Defined.

(** X11. [resetAvailableServices] on a stored list, with services that
    answer the same way at all times: the default service is added when
    its host answers and its name is free; then, if no stored service
    answers, the whole list is replaced by the empty list, and otherwise
    it is kept. *)
Theorem resetAvailableServices_keeps_or_empties (net : Network)
    (WTSS_HOST : string) (w : World) (l : list Service) :
  stable net ->
  disk w = Stored l ->
  let with_default :=
    if (connects net O WTSS_HOST &&
        (registrations l "Brazil Data Cube" =? 0)%nat)%bool
    then l ++ [mkService (next_index l) "Brazil Data Cube" WTSS_HOST]
    else l in
  fst (resetAvailableServices net WTSS_HOST w) = Return tt /\
  disk (snd (resetAvailableServices net WTSS_HOST w)) =
    Stored (match filter (passes net) with_default with
            | [] => []
            | _ :: _ => with_default
            end).
Proof.
  intros St D. cbv zeta. unfold resetAvailableServices.
  assert (C : connects net (tick w) WTSS_HOST = connects net O WTSS_HOST).
  { unfold connects. now rewrite St. }
  set (added := l ++ [mkService (next_index l) "Brazil Data Cube" WTSS_HOST]).
  set (rest := (names <- getServiceNames net ;;
                match names with
                | [] => json_dump []
                | _ :: _ => ret tt
                end)).
  assert (Run : forall (w1 : World) (l1 : list Service),
            disk w1 = Stored l1 ->
            fst (rest w1) = Return tt /\
            disk (snd (rest w1)) =
              Stored (match filter (passes net) l1 with
                      | [] => []
                      | _ :: _ => l1
                      end)).
  { intros w1 l1 D1. unfold rest, bind.
    destruct (getServiceNames_tests_each net w1 l1 D1) as (names & -> & N).
    rewrite (N St).
    destruct (filter (passes net) l1); simpl.
    - unfold json_dump. simpl. rewrite D1. split; reflexivity.
    - split; [reflexivity|exact D1]. }
  pose proof (addService_stored net "Brazil Data Cube" WTSS_HOST w l D) as A.
  rewrite C in A.
  destruct (find_loop l "Brazil Data Cube") as [s|] eqn:F.
  - assert (R : (registrations l "Brazil Data Cube" =? 0)%nat = false).
    { apply Nat.eqb_neq. rewrite <- find_loop_none, F. discriminate. }
    rewrite R, andb_false_r.
    rewrite (bind_return _ (fun _ => rest) w _ _ A).
    exact (Run (after w [ListCoverages WTSS_HOST]) l D).
  - assert (R : (registrations l "Brazil Data Cube" =? 0)%nat = true).
    { apply Nat.eqb_eq. now apply find_loop_none. }
    rewrite R, andb_true_r.
    destruct (connects net O WTSS_HOST);
      rewrite (bind_return _ (fun _ => rest) w _ _ A).
    + exact (Run (mkWorld (Stored added) (sent w ++ [ListCoverages WTSS_HOST]))
               added eq_refl).
    + exact (Run (after w [ListCoverages WTSS_HOST]) l D).
Qed.

Lemma resetAvailableServices_keeps_or_empties_witness :
  fst (resetAvailableServices Sample.down "https://data.inpe.br/bdc/wtss/v4"
         Sample.two_services) = Return tt /\
  disk (snd (resetAvailableServices Sample.down
               "https://data.inpe.br/bdc/wtss/v4" Sample.two_services)) =
    Stored [].
Proof.
  apply (resetAvailableServices_keeps_or_empties Sample.down
           "https://data.inpe.br/bdc/wtss/v4" Sample.two_services
           [Sample.bdc; Sample.lab]).
  - intros t url. reflexivity.
  - reflexivity.
Defined.

Lemma getServiceNames_single (net : Network) (w : World) (s : Service) :
  disk w = Stored [s] ->
  getServiceNames net w =
  (Return (if connects net (tick w) (host s) then [name s] else []),
   after w [ListCoverages (host s)]).
Proof.
  intros D. unfold getServiceNames, try_except, bind.
  rewrite (getServices_stored w [s] D).
  cbn [getServiceNames_loop]. unfold bind.
  rewrite testServiceConnection_run.
  now destruct (connects net (tick w) (host s)).
Qed.

(** X12. [Services.__init__]: a file that is there is left as it is and
    no request is sent.  With the file missing, the file is created: it holds
    the default service alone, index 0, when the default host answers the
    two connection tests made, and the empty list otherwise.  With the
    directory missing too, [FileNotFoundError] is raised. *)
Theorem init_creates_default (net : Network) (WTSS_HOST : string)
    (w : World) :
  (forall l, disk w = Stored l -> init net WTSS_HOST w = (Return tt, w)) /\
  (disk w = NoFile ->
   fst (init net WTSS_HOST w) = Return tt /\
   disk (snd (init net WTSS_HOST w)) =
     Stored (if (connects net (tick w) WTSS_HOST &&
                 connects net (S (tick w)) WTSS_HOST)%bool
             then [mkService 0 "Brazil Data Cube" WTSS_HOST]
             else [])) /\
  (disk w = NoDirectory ->
   fst (init net WTSS_HOST w) = Raise FileNotFoundError /\
   disk (snd (init net WTSS_HOST w)) = NoDirectory).
Proof.
  assert (Missing : forall w0, unreadable (disk w0) ->
            init net WTSS_HOST w0 =
            (addService net "Brazil Data Cube" WTSS_HOST ;;
             names <- getServiceNames net ;;
             match names with
             | [] => json_dump []
             | _ :: _ => ret tt
             end) w0).
  { intros w0 U. unfold init, try_except, bind at 1.
    now rewrite (getServices_unreadable w0 U). }
  assert (Names : forall w0, unreadable (disk w0) ->
            getServiceNames net w0 = (Return [], w0)).
  { intros w0 U. unfold getServiceNames, try_except, bind.
    now rewrite (getServices_unreadable w0 U). }
  split; [|split].
  - intros l D. unfold init, try_except, bind.
    now rewrite (getServices_stored w l D).
  - intros D.
    assert (U : unreadable (disk w)) by (rewrite D; intros ?; discriminate).
    rewrite (Missing w U).
    pose proof (addService_unreadable net "Brazil Data Cube" WTSS_HOST w U) as A.
    rewrite D in A.
    destruct (connects net (tick w) WTSS_HOST); cbn [andb];
      rewrite (bind_return _ _ w _ _ A).
    + pose proof (getServiceNames_single net
                    (mkWorld (Stored [mkService 0 "Brazil Data Cube" WTSS_HOST])
                       (sent w ++ [ListCoverages WTSS_HOST]))
                    (mkService 0 "Brazil Data Cube" WTSS_HOST) eq_refl) as G.
      replace (tick (mkWorld _ (sent w ++ [ListCoverages WTSS_HOST])))
        with (S (tick w)) in G
        by (unfold tick; simpl; rewrite length_app; simpl; lia).
      cbn [host name] in G.
      destruct (connects net (S (tick w)) WTSS_HOST);
        rewrite (bind_return _ _ _ _ _ G); split; reflexivity.
    + rewrite (bind_return _ _ _ _ _ (Names (after w [ListCoverages WTSS_HOST]) U)).
      unfold json_dump, after. cbn [disk]. rewrite D. split; reflexivity.
  - intros D.
    assert (U : unreadable (disk w)) by (rewrite D; intros ?; discriminate).
    rewrite (Missing w U).
    pose proof (addService_unreadable net "Brazil Data Cube" WTSS_HOST w U) as A.
    rewrite D in A.
    assert (A' : addService net "Brazil Data Cube" WTSS_HOST w =
                 (Return None, after w [ListCoverages WTSS_HOST])).
    { rewrite A. now destruct (connects net (tick w) WTSS_HOST). }
    rewrite (bind_return _ _ w _ _ A').
    rewrite (bind_return _ _ _ _ _ (Names (after w [ListCoverages WTSS_HOST]) U)).
    unfold json_dump, after. cbn [disk]. rewrite D. split; reflexivity.
Qed.

Lemma init_creates_default_witness :
  init Sample.up "https://data.inpe.br/bdc/wtss/v4" Sample.two_services =
    (Return tt, Sample.two_services) /\
  disk (snd (init Sample.up "https://data.inpe.br/bdc/wtss/v4" Sample.no_file)) =
    Stored [Sample.bdc] /\
  fst (init Sample.up "https://data.inpe.br/bdc/wtss/v4"
         (mkWorld NoDirectory [])) = Raise FileNotFoundError.
Proof.
  split; [|split].
  - apply (init_creates_default Sample.up "https://data.inpe.br/bdc/wtss/v4"
             Sample.two_services) with (l := [Sample.bdc; Sample.lab]).
    reflexivity.
  - apply (init_creates_default Sample.up "https://data.inpe.br/bdc/wtss/v4"
             Sample.no_file). reflexivity.
  - apply (init_creates_default Sample.up "https://data.inpe.br/bdc/wtss/v4"
             (mkWorld NoDirectory [])). reflexivity.
Defined.

(** ** Loading twice *)

Lemma names_distinct_filter (f : Service -> bool) (l : list Service) :
  names_distinct l -> names_distinct (filter f l).
Proof.
  unfold names_distinct. induction l as [|x l IH]; simpl; intros N; [exact N|].
  apply NoDup_cons_iff in N. destruct N as [N1 N2].
  destruct (f x); [|now apply IH].
  simpl. constructor; [|now apply IH].
  intros I. apply N1. apply in_map_iff in I. destruct I as (y & E & I).
  apply filter_In in I. rewrite <- E. apply in_map. tauto.
Qed.

Lemma filter_twice {A} (f : A -> bool) (l : list A) :
  filter f (filter f l) = filter f l.
Proof.
  induction l as [|x l IH]; simpl; [reflexivity|].
  destruct (f x) eqn:E; simpl; [rewrite E|]; now rewrite IH.
Qed.

Lemma loadServices_stable_run (net : Network) (w : World) (l : list Service) :
  stable net -> disk w = Stored l -> names_distinct l ->
  exists w',
    loadServices net w =
      (Return [Node "Services"
                 (map (service_tree net) (filter (passes net) l))], w') /\
    disk w' = Stored (filter (passes net) l).
Proof.
  intros St D N. unfold loadServices. rewrite (getServices_stored w l D).
  destruct (loadServices_loop_run net St l [] [] w D N) as (w' & -> & D').
  exists w'. split; [reflexivity|exact D'].
Qed.

(** X13. With names all different and services that answer the same way
    at all times, loading the services a second time changes nothing more:
    the file stays as the first load left it and the same tree comes
    back. *)
Theorem loadServices_twice (net : Network) (w : World) (l : list Service) :
  stable net ->
  disk w = Stored l ->
  NoDup (map name l) ->
  fst (loadServices net (snd (loadServices net w))) =
    fst (loadServices net w) /\
  disk (snd (loadServices net (snd (loadServices net w)))) =
    disk (snd (loadServices net w)).
Proof.
  intros St D N.
  destruct (loadServices_stable_run net w l St D N) as (w1 & -> & D1).
  cbn [fst snd].
  destruct (loadServices_stable_run net w1 (filter (passes net) l) St D1
              (names_distinct_filter (passes net) l N)) as (w2 & -> & D2).
  cbn [fst snd]. rewrite filter_twice in *. split; congruence.
Qed.

Lemma loadServices_twice_witness :
  fst (loadServices (Sample.only "http://localhost:5000")
         (snd (loadServices (Sample.only "http://localhost:5000")
                 Sample.two_services))) =
    fst (loadServices (Sample.only "http://localhost:5000") Sample.two_services) /\
  disk (snd (loadServices (Sample.only "http://localhost:5000")
               (snd (loadServices (Sample.only "http://localhost:5000")
                       Sample.two_services)))) =
    disk (snd (loadServices (Sample.only "http://localhost:5000")
                 Sample.two_services)).
Proof.
  apply (loadServices_twice (Sample.only "http://localhost:5000")
           Sample.two_services [Sample.bdc; Sample.lab]).
  - intros t url. reflexivity.
  - reflexivity.
  - repeat constructor; simpl; intuition discriminate.
Defined.

Lemma subsequence_refl {A} (l : list A) : subsequence l l.
Proof. induction l; constructor; assumption. Qed.

Lemma subsequence_trans {A} (a b c : list A) :
  subsequence a b -> subsequence b c -> subsequence a c.
Proof.
  intros Hab Hbc. revert a Hab.
  induction Hbc as [|x b c _ IH|x b c _ IH]; intros a Hab.
  - exact Hab.
  - constructor. now apply IH.
  - inversion Hab; subst; constructor; now apply IH.
Qed.

Lemma subsequence_without {A} (l1 l2 : list A) (x : A) :
  subsequence (l1 ++ l2) (l1 ++ x :: l2).
Proof.
  induction l1 as [|y l1 IH]; simpl.
  - constructor. apply subsequence_refl.
  - now constructor.
Qed.

Lemma deleteService_subsequence (n : string) (w : World) (l : list Service) :
  disk w = Stored l ->
  exists r w' l',
    deleteService n w = (Return r, w') /\
    disk w' = Stored l' /\ subsequence l' l.
Proof.
  intros D. destruct (find_loop l n) as [s|] eqn:F.
  - destruct (deleteService_present n w l s D F) as (l1 & l2 & -> & _ & ->).
    eexists _, _, _. split; [reflexivity|]. split; [reflexivity|].
    apply subsequence_without.
  - rewrite (deleteService_absent n w l D F).
    exists None, w, l. repeat split; [exact D|apply subsequence_refl].
Qed.

Lemma loadServices_loop_subsequence (net : Network) (services : list Service) :
  forall (servers : list Tree) (w : World) (l : list Service),
    disk w = Stored l ->
    exists l',
      disk (snd (loadServices_loop net services servers w)) = Stored l' /\
      subsequence l' l.
Proof.
  induction services as [|server rest IH]; intros servers w l D.
  - exists l. split; [exact D|apply subsequence_refl].
  - cbn [loadServices_loop]. rewrite testServiceConnection_run.
    destruct (connects net (tick w) (host server)).
    + unfold coverages, remote.
      destruct (wtss_coverages net _ (host server)).
      * apply IH. exact D.
      * exists l. split; [exact D|apply subsequence_refl].
    + destruct (deleteService_subsequence (name server)
                  (after w [ListCoverages (host server)]) l D)
        as (r & w1 & l1 & -> & D1 & S1).
      destruct (IH servers w1 l1 D1) as (l2 & D2 & S2).
      exists l2. split; [exact D2|]. now apply subsequence_trans with l1.
Qed.

(** X14. Whatever the network answers and whatever the stored list holds,
    [loadServices] only takes entries out: the list it leaves is made of
    entries of the list it found, in their order. *)
Theorem loadServices_only_removes (net : Network) (w : World)
    (l : list Service) :
  disk w = Stored l ->
  exists l',
    disk (snd (loadServices net w)) = Stored l' /\ subsequence l' l.
Proof.
  intros D. unfold loadServices. rewrite (getServices_stored w l D).
  destruct (loadServices_loop_subsequence net l [] w l D) as (l' & D' & S').
  exists l'. split; [|exact S'].
  destruct (loadServices_loop net l [] w) as [[[e|] servers] w2];
    [destruct (file_errors e)|]; exact D'.
Qed.

Lemma loadServices_only_removes_witness :
  exists l',
    disk (snd (loadServices (Sample.only "http://new.example.org")
                 Sample.two_mirrors)) = Stored l' /\
    subsequence l' [Sample.mirror_old; Sample.mirror_new].
Proof.
  apply (loadServices_only_removes (Sample.only "http://new.example.org")
           Sample.two_mirrors [Sample.mirror_old; Sample.mirror_new]).
  reflexivity.
Defined.

(** ** Dates *)

Lemma substring_nothing (n : nat) (s : string) : substring n 0 s = EmptyString.
Proof.
  revert n. induction s as [|c s IH]; intros [|n]; simpl; auto.
Qed.

(** The three slices of a string of ten characters. *)
Lemma py_slice_ten (s : string) :
  String.length s = 10%nat ->
  py_slice s None (Some 4%Z) = substring 0 4 s /\
  py_slice s (Some 5%Z) (Some (-3)%Z) = substring 5 2 s /\
  py_slice s (Some 8%Z) None = substring 8 2 s.
Proof.
  intros L. unfold py_slice. rewrite L. repeat split.
Qed.

(** The month slice of a string of at most eight characters is empty. *)
Lemma py_slice_short (s : string) :
  (String.length s <= 8)%nat ->
  py_slice s (Some 5%Z) (Some (-3)%Z) = EmptyString.
Proof.
  intros L. unfold py_slice, slice_index.
  set (n := Z.of_nat (String.length s)).
  assert (Hn : (0 <= n <= 8)%Z) by (unfold n; lia).
  replace (5 <? 0)%Z with false by reflexivity.
  replace (-3 <? 0)%Z with true by reflexivity.
  replace (5 <? 0)%Z with false by reflexivity. cbv zeta.
  destruct (Z.ltb_spec n 5); destruct (Z.ltb_spec (-3 + n) 0);
    destruct (Z.ltb_spec n (-3 + n)); try lia;
    match goal with
    | |- substring _ (Z.to_nat ?d) _ = _ =>
        replace (Z.to_nat d) with O by lia
    end; apply substring_nothing.
Qed.

(** X15. On a string of ten characters [formatForQDate] reads the year
    from the first four, the month from the sixth and seventh and the day
    from the last two; the fifth and the eighth character are never looked
    at, so two strings that differ only there give the same date or the
    same exception. *)
Theorem formatForQDate_ignores_separators (int : string -> Outcome Z)
    (QDateT : Type) (QDate : Z -> Z -> Z -> Outcome QDateT)
    (s s' : string) :
  String.length s = 10%nat ->
  String.length s' = 10%nat ->
  (forall i, i <> 4%nat -> i <> 7%nat -> String.get i s = String.get i s') ->
  formatForQDate int QDate s =
    (y <~ int (substring 0 4 s) ;;
     m <~ int (substring 5 2 s) ;;
     d <~ int (substring 8 2 s) ;;
     QDate y m d) /\
  formatForQDate int QDate s = formatForQDate int QDate s'.
Proof.
  intros L L' G. unfold formatForQDate.
  destruct (py_slice_ten s L) as (-> & -> & ->).
  destruct (py_slice_ten s' L') as (-> & -> & ->).
  split; [reflexivity|].
  do 10 (destruct s as [|? s]; [discriminate L|]).
  destruct s; [|discriminate L].
  do 10 (destruct s' as [|? s']; [discriminate L'|]).
  destruct s'; [|discriminate L'].
  pose proof (G 0%nat ltac:(lia) ltac:(lia)) as G0.
  pose proof (G 1%nat ltac:(lia) ltac:(lia)) as G1.
  pose proof (G 2%nat ltac:(lia) ltac:(lia)) as G2.
  pose proof (G 3%nat ltac:(lia) ltac:(lia)) as G3.
  pose proof (G 5%nat ltac:(lia) ltac:(lia)) as G5.
  pose proof (G 6%nat ltac:(lia) ltac:(lia)) as G6.
  pose proof (G 8%nat ltac:(lia) ltac:(lia)) as G8.
  pose proof (G 9%nat ltac:(lia) ltac:(lia)) as G9.
  clear G L L'. simpl in *.
  injection G0 as ->. injection G1 as ->. injection G2 as ->.
  injection G3 as ->. injection G5 as ->. injection G6 as ->.
  injection G8 as ->. injection G9 as ->. reflexivity.
Qed.

Lemma formatForQDate_ignores_separators_witness :
  formatForQDate Sample.decimal_int Sample.ymd "2020-01-15" =
    Return (2020%Z, 1%Z, 15%Z) /\
  formatForQDate Sample.decimal_int Sample.ymd "2020-01-15" =
    formatForQDate Sample.decimal_int Sample.ymd "2020/01x15".
Proof.
  destruct (formatForQDate_ignores_separators Sample.decimal_int _ Sample.ymd
              "2020-01-15" "2020/01x15" eq_refl eq_refl) as [Parts Same].
  - intros i H4 H7.
    do 10 (destruct i as [|i]; [try reflexivity; contradiction|]).
    reflexivity.
  - split; [rewrite Parts; reflexivity|exact Same].
Defined.

(** X16. A date string of at most eight characters, such as one with a
    month and a day of one digit, is refused: the month slice is empty, and
    [int], which refuses the empty string and raises nothing but
    [ValueError], makes [formatForQDate] raise [ValueError]. *)
Theorem formatForQDate_short_string (int : string -> Outcome Z)
    (QDateT : Type) (QDate : Z -> Z -> Z -> Outcome QDateT) (s : string) :
  int EmptyString = Raise ValueError ->
  (forall x e, int x = Raise e -> e = ValueError) ->
  (String.length s <= 8)%nat ->
  formatForQDate int QDate s = Raise ValueError.
Proof.
  intros Empty Only L. unfold formatForQDate, and_then.
  rewrite (py_slice_short s L), Empty.
  destruct (int (py_slice s None (Some 4%Z))) as [y|e] eqn:E; [reflexivity|].
  now rewrite (Only _ _ E).
Qed.

Lemma decimal_raises_ValueError (s : string) :
  forall acc e, Sample.decimal s acc = Raise e -> e = ValueError.
Proof.
  induction s as [|c s IH]; intros acc e; simpl; [discriminate|].
  destruct (Sample.digit c); [apply IH|congruence].
Defined.

Lemma formatForQDate_short_string_witness :
  formatForQDate Sample.decimal_int Sample.ymd "2020-1-5" = Raise ValueError.
Proof.
  apply (formatForQDate_short_string Sample.decimal_int _ Sample.ymd "2020-1-5").
  - reflexivity.
  - intros x e. destruct x as [|c x]; [simpl; congruence|].
    change (Sample.decimal (String c x) 0 = Raise e -> e = ValueError).
    apply decimal_raises_ValueError.
  - simpl. lia.
Defined.

(** ** The description of a coverage *)

Section DescriptionText.

Variable coverage_get : Coverage -> string -> Outcome value.
Variable str : value -> string.
Variable format_2f : value -> Outcome string.

(** The text cannot be made when the spatial extent is not a dictionary. *)
Lemma format_description_no_extent (description : Description)
    (text extent : value) :
  description_get coverage_get description "description" = Return text ->
  description_get coverage_get description "spatial_extent" = Return extent ->
  (forall entries, extent <> VDict entries) ->
  format_description coverage_get str format_2f description =
  Raise AttributeError.
Proof.
  intros T E N. unfold format_description, and_then. rewrite T, E.
  destruct extent; try reflexivity. exfalso. now apply (N entries).
Qed.

End DescriptionText.

(** X17. For a registered service whose connection test fails,
    [getCoverageDescription] raises [AttributeError]: [productDescription]
    gives the empty dictionary, which has no spatial extent to read the
    bounds from.  Only the connection test is sent. *)
Theorem getCoverageDescription_unreachable (net : Network)
    (coverage_get : Coverage -> string -> Outcome value)
    (str : value -> string) (format_2f : value -> Outcome string)
    (w : World) (l : list Service) (service coverage : string) (s : Service) :
  disk w = Stored l ->
  find_loop l service = Some s ->
  connects net (tick w) (host s) = false ->
  getCoverageDescription net coverage_get str format_2f service coverage w =
  (Raise AttributeError, after w [ListCoverages (host s)]).
Proof.
  intros D F C. unfold getCoverageDescription, bind.
  rewrite (productDescription_run net w l service s D F), C.
  unfold lift.
  now rewrite (format_description_no_extent coverage_get str format_2f
                 NoDescription VNone VNone eq_refl eq_refl).
Qed.

Lemma getCoverageDescription_unreachable_witness :
  getCoverageDescription Sample.down Sample.metadata_get Sample.plain_str
    Sample.whole_2f "Lab" "MOD13Q1" Sample.two_services =
  (Raise AttributeError,
   after Sample.two_services [ListCoverages "http://localhost:5000"]).
Proof.
  apply (getCoverageDescription_unreachable Sample.down Sample.metadata_get
           Sample.plain_str Sample.whole_2f Sample.two_services
           [Sample.bdc; Sample.lab] "Lab" "MOD13Q1" Sample.lab);
    reflexivity.
Defined.

(** ** The direct answer *)

Lemma dict_store_same (entries : list (string * value)) (key : string)
    (x : value) :
  dict_lookup entries key = Some x -> dict_store entries key x = entries.
Proof.
  induction entries as [|[k v] rest IH]; simpl; [discriminate|].
  destruct (String.eqb k key).
  - now intros [= ->].
  - intros L. now rewrite IH.
Qed.

(** X18. A direct answer with status 200 whose time line is the empty
    list comes back exactly as it was received, whatever [strptime] does;
    an answer without the key ["result"], or whose result has no key
    ["timeline"], raises [KeyError]. *)
Theorem parse_timeline_edges (strptime : value -> string -> Outcome Date)
    (status : Z) (entries : list (string * value)) :
  (forall result,
     dict_lookup entries "result" = Some (VDict result) ->
     dict_lookup result "timeline" = Some (VList []) ->
     parse_timeline strptime (mkResponse status (Some (VDict entries))) =
       Return (VDict entries)) /\
  (dict_lookup entries "result" = None ->
   parse_timeline strptime (mkResponse status (Some (VDict entries))) =
     Raise KeyError) /\
  (forall result,
     dict_lookup entries "result" = Some (VDict result) ->
     dict_lookup result "timeline" = None ->
     parse_timeline strptime (mkResponse status (Some (VDict entries))) =
       Raise KeyError).
Proof.
  unfold parse_timeline, and_then, response_json, value_getitem. simpl.
  split; [|split].
  - intros result R T. rewrite R, T. simpl.
    now rewrite (dict_store_same result "timeline" (VList []) T),
      (dict_store_same entries "result" (VDict result) R).
  - now intros ->.
  - intros result R T. now rewrite R, T.
Qed.

Lemma parse_timeline_edges_witness :
  parse_timeline Sample.module_strptime
    (mkResponse 200
       (Some (VDict [("result", VDict [("timeline", VList [])])]))) =
    Return (VDict [("result", VDict [("timeline", VList [])])]) /\
  parse_timeline Sample.module_strptime
    (mkResponse 200 (Some (VDict [("message", VStr "no such coverage")]))) =
    Raise KeyError.
Proof.
  split.
  - apply (parse_timeline_edges Sample.module_strptime 200
             [("result", VDict [("timeline", VList [])])])
      with (result := [("timeline", VList [])]); reflexivity.
  - apply (parse_timeline_edges Sample.module_strptime 200
             [("message", VStr "no such coverage")]). reflexivity.
Defined.

(** ** The description of a service *)

Lemma append_cancel (p x y : string) :
  (p ++ x = p ++ y)%string -> x = y.
Proof.
  induction p as [|c p IH]; simpl; [auto|]. intros [= E]. now apply IH.
Qed.

Lemma line_cancel (a b x y : string) :
  one_line a = true -> one_line b = true ->
  (a ++ newline ++ x = b ++ newline ++ y)%string ->
  a = b /\ x = y.
Proof.
  revert b. induction a as [|c a IH]; intros [|d b]; simpl.
  - intros _ _ [= E]. auto.
  - intros _ Hb [= E _]. subst d. discriminate Hb.
  - intros Ha _ [= E _]. subst c. discriminate Ha.
  - intros Ha Hb [= -> E].
    apply andb_true_iff in Ha, Hb.
    destruct (IH b (proj2 Ha) (proj2 Hb) E) as [-> ->]. auto.
Qed.

(** X19. The text of [getDescription] tells the three fields apart: when
    the name and the host have no line break, two descriptions are equal
    only if name, host and coverage are. *)
Theorem getDescription_injective (n h c n' h' c' : string) :
  one_line n = true -> one_line h = true ->
  one_line n' = true -> one_line h' = true ->
  getDescription n h c = getDescription n' h' c' ->
  n = n' /\ h = h' /\ c = c'.
Proof.
  intros Hn Hh Hn' Hh' E. unfold getDescription in E.
  apply append_cancel in E.
  apply line_cancel in E; auto. destruct E as [-> E].
  apply append_cancel in E.
  apply line_cancel in E; auto. destruct E as [-> E].
  apply append_cancel in E.
  split; [reflexivity|]. split; [reflexivity|].
  revert c' E. induction c as [|x c IH]; intros [|y c']; simpl; intros E.
  - reflexivity.
  - injection E as _ E. destruct c'; discriminate E.
  - injection E as _ E. destruct c; discriminate E.
  - injection E as -> E. f_equal. now apply IH.
Qed.

Lemma getDescription_injective_witness :
  "Lab" = "Lab" /\ "http://localhost:5000" = "http://localhost:5000" /\
  "MOD13Q1" = "MOD13Q1".
Proof.
  apply (getDescription_injective "Lab" "http://localhost:5000" "MOD13Q1"
           "Lab" "http://localhost:5000" "MOD13Q1"); reflexivity.
Defined.

(** ** The tree view *)

Lemma Tree_forall_ind (P : Tree -> Prop) :
  (forall text children, Forall P children -> P (Node text children)) ->
  forall t, P t.
Proof.
  intros H. fix IH 1. intros [text children]. apply H.
  induction children as [|c cs IHc]; constructor; [apply IH|exact IHc].
Qed.

Lemma appendRow_length (parent item : nat) (items : list Item) :
  List.length (appendRow parent item items) = List.length items.
Proof.
  revert parent. induction items as [|it rest IH]; intros [|p]; simpl; auto.
Qed.

Lemma appendRow_other (parent item : nat) (items : list Item) (i : nat) :
  i <> parent ->
  nth_error (appendRow parent item items) i = nth_error items i.
Proof.
  revert parent i. induction items as [|it rest IH]; intros [|p] [|i] N;
    simpl; auto; try (exfalso; apply N; reflexivity).
Qed.

Lemma appendRow_parent (parent item : nat) (items : list Item) (it : Item) :
  nth_error items parent = Some it ->
  nth_error (appendRow parent item items) parent =
  Some (mkItem (item_text it) (item_rows it ++ [item])).
Proof.
  revert parent. induction items as [|x rest IH]; intros [|p]; simpl;
    try discriminate.
  - now intros [= ->].
  - apply IH.
Qed.

Lemma forest_added_of_items (es : list Tree) :
  Forall item_added es -> forest_added es.
Proof.
  induction 1 as [|e es He _ IH]; intros items parent t rows P; cbv zeta.
  - exists []. simpl. rewrite app_nil_r, Nat.add_0_r. repeat split; auto.
  - unfold addItemsTreeView. simpl fold_left.
    fold (addItemsTreeView parent es (addItemsTreeView_item parent e items)).
    destruct (He items parent t rows P) as (L1 & O1 & P1 & S1).
    set (items1 := addItemsTreeView_item parent e items) in *.
    destruct (IH items1 parent t (rows ++ [List.length items]) P1)
      as (new_rows & L2 & O2 & P2 & S2).
    set (items2 := addItemsTreeView parent es items1) in *.
    assert (Lp : (parent < List.length items)%nat).
    { apply nth_error_Some. rewrite P. discriminate. }
    exists (List.length items :: new_rows). simpl forest_size.
    split; [lia|]. split; [|split].
    + intros i Hi Np. rewrite O2 by lia. now apply O1.
    + rewrite P2, <- app_assoc. reflexivity.
    + intros later d A D. simpl. f_equal.
      * apply S1; [|simpl in D; lia].
        intros i Hi. rewrite A by lia. apply O2; lia.
      * apply S2; [|simpl in D; lia].
        intros i Hi. apply A. lia.
Qed.

Lemma item_added_of_forest (text : string) (children : list Tree) :
  forest_added children -> item_added (Node text children).
Proof.
  intros F items parent t rows P. cbv zeta.
  assert (Lp : (parent < List.length items)%nat).
  { apply nth_error_Some. rewrite P. discriminate. }
  set (items1 := appendRow parent (List.length items) (new_item text items)).
  assert (E : addItemsTreeView_item parent (Node text children) items =
              addItemsTreeView (List.length items) children items1).
  { simpl. now destruct children. }
  rewrite E.
  assert (L1 : List.length items1 = S (List.length items)).
  { unfold items1, new_item. rewrite appendRow_length, length_app. simpl. lia. }
  assert (N1 : nth_error items1 (List.length items) = Some (mkItem text [])).
  { unfold items1, new_item. rewrite appendRow_other by lia.
    now rewrite nth_error_app2, Nat.sub_diag by lia. }
  assert (O1 : forall i, (i < List.length items)%nat -> i <> parent ->
                         nth_error items1 i = nth_error items i).
  { intros i Hi Np. unfold items1, new_item.
    rewrite appendRow_other by exact Np. now apply nth_error_app1. }
  assert (P1 : nth_error items1 parent =
               Some (mkItem t (rows ++ [List.length items]))).
  { unfold items1, new_item.
    rewrite (appendRow_parent parent (List.length items) _ (mkItem t rows));
      [reflexivity|].
    rewrite nth_error_app1 by exact Lp. exact P. }
  destruct (F items1 (List.length items) text [] N1)
    as (new_rows & L2 & O2 & P2 & S2).
  set (items2 := addItemsTreeView (List.length items) children items1) in *.
  simpl tree_size. fold (forest_size children).
  split; [lia|]. split; [|split].
  - intros i Hi Np. rewrite O2 by lia. now apply O1.
  - rewrite O2 by lia. exact P1.
  - intros later d A D. destruct d as [|d]; [lia|]. simpl.
    rewrite A by lia. rewrite P2. simpl. f_equal.
    apply S2; [|lia]. intros i Hi. apply A. lia.
Qed.

Lemma every_item_added (e : Tree) : item_added e.
Proof.
  induction e as [text children IH] using Tree_forall_ind.
  apply item_added_of_forest, forest_added_of_items, IH.
Qed.

(** X20. [addItemsTreeView] shows the elements as they are given: under
    the parent, after the rows it had, there is one new row per element,
    and read back from the items each new row is the element with all its
    descendants.  One item is created per node, and no item other than
    the parent is changed. *)
Theorem addItemsTreeView_shows_elements (parent : nat)
    (elements : list Tree) (items : list Item) (t : string)
    (rows : list nat) :
  nth_error items parent = Some (mkItem t rows) ->
  exists new_rows,
    nth_error (addItemsTreeView parent elements items) parent =
      Some (mkItem t (rows ++ new_rows)) /\
    map (shown (forest_size elements)
           (addItemsTreeView parent elements items)) new_rows = elements /\
    List.length (addItemsTreeView parent elements items) =
      (List.length items + forest_size elements)%nat /\
    (forall i, (i < List.length items)%nat -> i <> parent ->
               nth_error (addItemsTreeView parent elements items) i =
               nth_error items i).
Proof.
  intros P.
  assert (F : forest_added elements).
  { apply forest_added_of_items, Forall_forall. intros e _.
    apply every_item_added. }
  destruct (F items parent t rows P) as (new_rows & L & O & P' & S').
  exists new_rows. repeat split; auto.
Qed.

Lemma addItemsTreeView_shows_elements_witness :
  exists new_rows,
    nth_error (addItemsTreeView 0
                 [Node "Services" [Node "Lab" [Node "MOD13Q1" []]]]
                 [mkItem "" []]) 0 = Some (mkItem "" ([] ++ new_rows)) /\
    map (shown (forest_size [Node "Services" [Node "Lab" [Node "MOD13Q1" []]]])
           (addItemsTreeView 0
              [Node "Services" [Node "Lab" [Node "MOD13Q1" []]]]
              [mkItem "" []])) new_rows =
      [Node "Services" [Node "Lab" [Node "MOD13Q1" []]]] /\
    List.length (addItemsTreeView 0
                   [Node "Services" [Node "Lab" [Node "MOD13Q1" []]]]
                   [mkItem "" []]) =
      (List.length [mkItem "" []] +
       forest_size [Node "Services" [Node "Lab" [Node "MOD13Q1" []]]])%nat /\
    (forall i, (i < List.length [mkItem "" []])%nat -> i <> 0%nat ->
               nth_error (addItemsTreeView 0
                            [Node "Services" [Node "Lab" [Node "MOD13Q1" []]]]
                            [mkItem "" []]) i =
               nth_error [mkItem "" []] i).
Proof.
  apply (addItemsTreeView_shows_elements 0
           [Node "Services" [Node "Lab" [Node "MOD13Q1" []]]]
           [mkItem "" []] "" []).
  reflexivity.
Defined.

(** The tree [loadServices] returns, put under an empty model and read
    back. *)
Example tree_view_of_loaded_services :
  match loadServices (Sample.only "http://localhost:5000") Sample.two_services with
  | (Return elements, _) =>
      shown 4 (addItemsTreeView 0 elements [mkItem "" []]) 0
  | (Raise _, _) => Node "" []
  end = Node "" [Node "Services" [Node "Lab" [Node "MOD13Q1" []]]].
Proof. reflexivity. Qed.
